(** * School registration backend: store, handlers and their properties

    A shallow embedding of the Express/SQLite backend:

    - [config/database.js]: the tables [students], [sections] and
      [contact_messages], the statement wrappers [db.run], [db.get],
      [db.all], and the start-up seed [insertDefaultSections];
    - [routes/registration.js]: [registrationValidation], the submission
      handler [router.post('/')] and the listing handler [router.get('/')];
    - [routes/contact.js]: the single-message handler [router.get('/:id')];
    - [utils/email.js]: [sendEmail], seen as a call that resolves or rejects.

    Every handler is an [async] function: it runs until an [await], hands
    one statement to the store (or one message to the mail transport), and
    is resumed with the result or with a rejection.  Handlers are modelled
    as finite trees of such awaits ([Prog]); one interpreter runs a single
    handler to completion ([run]), another interleaves several handlers at
    their awaits ([interleave]), as the event loop does.

    Conventions: integers are [Z]; strings are kept as their UTF-8 bytes;
    a timestamp is the number of seconds [CURRENT_TIMESTAMP] stands for;
    numbers that JavaScript computes are exact rationals, [NaN] or an
    infinity ([Num.t]): what is left out is the rounding of doubles beyond
    2^53, except in [Js.toString], which prints a row id as the double it
    has become. *)

From Stdlib Require Import ZArith List String Ascii Bool Lia.
From Stdlib Require Import Sorting.Sorted Sorting.Permutation.
From Stdlib Require Import Decimal DecimalString DecimalZ.
From Stdlib Require QArith Qround.
Import ListNotations.

Local Open Scope string_scope.
Local Open Scope list_scope.
Local Open Scope Z_scope.

(** ** JavaScript string helpers *)

Module Js.

(** The double nearest to an integer, ties going to the even significand:
    what a 64-bit row id becomes as a JavaScript number ([this.lastID]).
    Integers up to 2^53 in absolute value are their own doubles. *)
Definition to_double (z : Z) : Z :=
  let a := Z.abs z in
  let e := Z.log2 a - 52 in
  if e <=? 0 then z
  else
    let q := Z.shiftr a e in
    let r := a - Z.shiftl q e in
    let half := Z.shiftl 1 (e - 1) in
    let q' :=
      if r <? half then q
      else if half <? r then q + 1
      else if Z.even q then q else q + 1 in
    Z.sgn z * Z.shiftl q' e.

(** The multiple of [scale] that the double [v] is nearest to, if there is
    one: of two, the one nearer to [v], and the even one when they are as
    near. *)
Definition nearest_at (v scale : Z) : option Z :=
  let lo := v / scale * scale in
  let hi := lo + scale in
  match to_double lo =? v, to_double hi =? v with
  | true, true =>
      Some (if v - lo <? hi - v then lo
            else if hi - v <? v - lo then hi
            else if Z.even (lo / scale) then lo else hi)
  | true, false => Some lo
  | false, true => Some hi
  | false, false => None
  end.

(** The integer with the fewest significant digits that the double [v] is
    nearest to: its multiples of [10 ^ j] are tried from the largest [j]. *)
Fixpoint shortest (v : Z) (j : nat) : Z :=
  match nearest_at v (10 ^ Z.of_nat j) with
  | Some c => c
  | None =>
      match j with
      | O => v
      | S j' => shortest v j'
      end
  end.

(** The integer whose digits [Number.prototype.toString] prints for a row
    id: the id itself below 2^53, and beyond the shortest decimal that
    reads back as the same double (2^53 + 1 prints as 9007199254740992). *)
Definition printed (z : Z) : Z :=
  if Z.abs z <? 2 ^ 53 then z
  else
    let v := to_double z in
    Z.sgn v * shortest (Z.abs v) (Z.to_nat (Z.log2 (Z.abs v))).

(** [Number.prototype.toString] on a row id. *)
Definition toString (z : Z) : string :=
  NilZero.string_of_int (Z.to_int (printed z)).

Fixpoint repeat_char (c : ascii) (n : nat) : string :=
  match n with
  | O => EmptyString
  | S n' => String c (repeat_char c n')
  end.

(** [String.prototype.padStart(targetLength, c)] with a one-character pad:
    a string already as long as [targetLength] is returned as it is. *)
Definition padStart (targetLength : nat) (c : ascii) (s : string) : string :=
  (repeat_char c (targetLength - String.length s) ++ s)%string.

(** The white space that [trim] strips is the class [\s]: the one-byte
    characters tab, line feed, vertical tab, form feed, carriage return and
    space; U+00A0, of two bytes; and U+1680, U+2000 to U+200A, U+2028,
    U+2029, U+202F, U+205F, U+3000 and U+FEFF, of three bytes. *)
Definition is_space (c : ascii) : bool :=
  match nat_of_ascii c with
  | 9%nat | 10%nat | 11%nat | 12%nat | 13%nat | 32%nat => true
  | _ => false
  end.

Definition is_space2 (a b : ascii) : bool :=
  ((N_of_ascii a =? 194) && (N_of_ascii b =? 160))%N.

Definition is_space3 (a b c : ascii) : bool :=
  let x := N_of_ascii a in
  let y := N_of_ascii b in
  let z := N_of_ascii c in
  ((x =? 225) && (y =? 154) && (z =? 128)
   || (x =? 226) && (y =? 128)
      && ((128 <=? z) && (z <=? 138) || (z =? 168) || (z =? 169) || (z =? 175))
   || (x =? 226) && (y =? 129) && (z =? 159)
   || (x =? 227) && (y =? 128) && (z =? 128)
   || (x =? 239) && (y =? 187) && (z =? 191))%N.

(** What follows the white-space character that [s] starts with.  When
    [backwards], [s] is read from its end: its bytes come last first. *)
Definition after_space (backwards : bool) (s : string) : option string :=
  match s with
  | String a s1 =>
      if is_space a then Some s1
      else
        match s1 with
        | String b s2 =>
            if (if backwards then is_space2 b a else is_space2 a b)
            then Some s2
            else
              match s2 with
              | String c s3 =>
                  if (if backwards then is_space3 c b a else is_space3 a b c)
                  then Some s3
                  else None
              | EmptyString => None
              end
        | EmptyString => None
        end
  | EmptyString => None
  end.

Fixpoint drop_spaces (backwards : bool) (n : nat) (s : string) : string :=
  match n with
  | O => s
  | S n' =>
      match after_space backwards s with
      | Some rest => drop_spaces backwards n' rest
      | None => s
      end
  end.

Definition trimStart (s : string) : string :=
  drop_spaces false (String.length s) s.

Fixpoint rev_string (s acc : string) : string :=
  match s with
  | EmptyString => acc
  | String c s' => rev_string s' (String c acc)
  end.

Definition trimEnd (s : string) : string :=
  let r := rev_string s EmptyString in
  rev_string (drop_spaces true (String.length r) r) EmptyString.

(** [trim]: the sanitizer of the validation chains and
    [String.prototype.trim] strip the same characters. *)
Definition trim (s : string) : string := trimEnd (trimStart s).

(** The number of characters [isLength] counts: the code points, the
    variation selectors U+FE0E and U+FE0F apart.  A code point starts at
    every byte that is not a continuation byte. *)
Definition is_continuation (c : ascii) : bool :=
  ((128 <=? N_of_ascii c) && (N_of_ascii c <=? 191))%N.

Definition is_selector (s : string) : bool :=
  match s with
  | String a (String b (String c _)) =>
      ((N_of_ascii a =? 239) && (N_of_ascii b =? 184)
       && ((N_of_ascii c =? 142) || (N_of_ascii c =? 143)))%N
  | _ => false
  end.

Fixpoint char_count (s : string) : nat :=
  match s with
  | EmptyString => O
  | String c s' =>
      if is_continuation c || is_selector s then char_count s'
      else S (char_count s')
  end.

(** Truthiness of an optional string ([if (email)], [if (status)]):
    [undefined] and the empty string are falsy. *)
Definition truthy (o : option string) : bool :=
  match o with
  | None => false
  | Some s => negb (s =? "")%string
  end.

End Js.

(** ** JavaScript numbers *)

Module Num.

(** A number is finite, [NaN], or one of the two infinities.  The sign of an
    infinity is not kept: no operation below tells the two apart, SQLite
    refuses both and JSON prints both as [null]. *)
Inductive t :=
| Finite (q : QArith_base.Q)
| Infinite
| NaN.

Definition of_Z (z : Z) : t := Finite (QArith_base.inject_Z z).

Definition is_zero (q : QArith_base.Q) : bool := QArith_base.Qnum q =? 0.

(** [a - z] for a finite [z]. *)
Definition sub (a : t) (z : Z) : t :=
  match a with
  | Finite q => Finite (QArith_base.Qminus q (QArith_base.inject_Z z))
  | Infinite => Infinite
  | NaN => NaN
  end.

(** [a * b]: zero times an infinity is [NaN]. *)
Definition mul (a b : t) : t :=
  match a, b with
  | Finite x, Finite y => Finite (QArith_base.Qmult x y)
  | Finite x, Infinite | Infinite, Finite x =>
      if is_zero x then NaN else Infinite
  | Infinite, Infinite => Infinite
  | NaN, _ | _, NaN => NaN
  end.

(** [a / b]: a division by zero gives an infinity, zero by zero [NaN]. *)
Definition div (a b : t) : t :=
  match a, b with
  | Finite x, Finite y =>
      if is_zero y then (if is_zero x then NaN else Infinite)
      else Finite (QArith_base.Qdiv x y)
  | Finite _, Infinite => Finite (QArith_base.inject_Z 0)
  | Infinite, Finite _ => Infinite
  | Infinite, Infinite => NaN
  | NaN, _ | _, NaN => NaN
  end.

(** [Math.ceil]. *)
Definition ceil (a : t) : t :=
  match a with
  | Finite q => Finite (QArith_base.inject_Z (Qround.Qceiling q))
  | Infinite => Infinite
  | NaN => NaN
  end.

(** The integer a number is, if it is one.  This is what SQLite asks of a
    bound [LIMIT] or [OFFSET] (a [NaN] is bound as [NULL]), and what JSON
    prints: [None] stands for a refused bound and for [null]. *)
Definition to_integer (a : t) : option Z :=
  match a with
  | Finite q =>
      let r := Qreduction.Qred q in
      if (QArith_base.Qden r =? 1)%positive then Some (QArith_base.Qnum r)
      else None
  | Infinite | NaN => None
  end.

End Num.

(** ** Tables (config/database.js, createTables) *)

Record Student := mkStudent {
  st_id : Z;
  st_student_name : string;
  st_student_age : Z;
  st_parent_name : string;
  st_phone : string;
  st_email : option string;
  st_section : string;
  st_payment_plan : string;
  st_comments : option string;
  st_registration_date : Z;
  st_status : string;
  st_payment_status : string;
  st_created_at : Z;
  st_updated_at : Z
}.

Record SectionRow := mkSection {
  sec_id : Z;
  sec_name : string;
  sec_description : string;
  sec_capacity : Z;
  sec_current_enrollment : Z;
  sec_fee_termly : Z;
  sec_fee_annual : Z;
  sec_age_min : Z;
  sec_age_max : Z;
  sec_is_active : bool;
  sec_created_at : Z;
  sec_updated_at : Z
}.

Record ContactMessage := mkMessage {
  msg_id : Z;
  msg_name : string;
  msg_email : string;
  msg_phone : option string;
  msg_subject : string;
  msg_message : string;
  msg_status : string;
  msg_created_at : Z;
  msg_updated_at : Z
}.

(** The store: each table in rowid order, and for the two tables the
    handlers insert into, the [sqlite_sequence] entry that [AUTOINCREMENT]
    keeps (the largest rowid ever handed out). *)
Record Store := mkStore {
  students : list Student;
  students_seq : Z;
  sections : list SectionRow;
  sections_seq : Z;
  contact_messages : list ContactMessage
}.

Definition empty_store : Store := mkStore [] 0 [] 0 [].

(** [INTEGER PRIMARY KEY AUTOINCREMENT]: one more than the largest rowid
    the table holds or has ever held. *)
Definition next_rowid (seq : Z) (ids : list Z) : Z :=
  Z.max seq (fold_right Z.max 0 ids) + 1.

(** ** Statements *)

(** The columns the listing filters on. *)
Inductive Column := ColStatus | ColSection.

Definition column_value (c : Column) (r : Student) : string :=
  match c with
  | ColStatus => st_status r
  | ColSection => st_section r
  end.

(** [WHERE 1=1 AND col = ? AND ...]: every condition holds. *)
Definition where_holds (conds : list (Column * string)) (r : Student) : bool :=
  forallb (fun c => (column_value (fst c) r =? snd c)%string) conds.

(** What [db.run] resolves to for an [INSERT]: [{ id: this.lastID, changes }]. *)
Record RunResult := mkRun { lastID : Z; changes : Z }.

Record SectionSeed := mkSeed {
  seed_name : string;
  seed_description : string;
  seed_capacity : Z;
  seed_fee_termly : Z;
  seed_fee_annual : Z;
  seed_age_min : Z;
  seed_age_max : Z
}.

(** One constructor per SQL text (or mail call) in the sources; the index
    is the type the promise resolves to.  An [UPDATE] and the
    [INSERT OR IGNORE] of the seed resolve to their [changes] count alone:
    their [lastID] is whatever an earlier insert left and no caller reads
    it. *)
Inductive Stmt : Type -> Type :=
| SelectStudentId (student_name parent_name phone : string) : Stmt (option Z)
| SelectActiveSection (name : string) : Stmt (option SectionRow)
| InsertStudent (student_name : string) (student_age : Z)
    (parent_name phone : string) (email : option string)
    (section payment_plan : string) (comments : option string) : Stmt RunResult
| IncrementEnrollment (name : string) : Stmt Z
| InsertOrIgnoreSection (d : SectionSeed) : Stmt Z
| SelectStudents (conds : list (Column * string)) (limit offset : Z)
    : Stmt (list Student)
| CountStudents (conds : list (Column * string)) : Stmt Z
| SelectMessage (id : Z) : Stmt (option ContactMessage)
| MarkMessageRead (id : Z) : Stmt Z
| SendEmail (to subject registrationId : string) : Stmt unit.

(** [ORDER BY created_at DESC]: insertion into a list kept newest-first;
    rows with equal timestamps keep their rowid order. *)
Fixpoint insert_desc (r : Student) (l : list Student) : list Student :=
  match l with
  | [] => [r]
  | x :: l' =>
      if st_created_at x <=? st_created_at r then r :: l
      else x :: insert_desc r l'
  end.

Definition order_by_created_at_desc (l : list Student) : list Student :=
  fold_right insert_desc [] l.

(** [LIMIT ? OFFSET ?]: a negative offset counts as zero, a negative limit
    as no limit. *)
Definition limit_offset {A} (limit offset : Z) (l : list A) : list A :=
  let rest := skipn (Z.to_nat offset) l in
  if limit <? 0 then rest else firstn (Z.to_nat limit) rest.

Definition same_student (student_name parent_name phone : string)
    (r : Student) : bool :=
  (st_student_name r =? student_name)%string
  && (st_parent_name r =? parent_name)%string
  && (st_phone r =? phone)%string.

Definition active_named (name : string) (r : SectionRow) : bool :=
  (sec_name r =? name)%string && sec_is_active r.

Definition bump_enrollment (name : string) (r : SectionRow) : SectionRow :=
  if (sec_name r =? name)%string then
    mkSection (sec_id r) (sec_name r) (sec_description r) (sec_capacity r)
      (sec_current_enrollment r + 1) (sec_fee_termly r) (sec_fee_annual r)
      (sec_age_min r) (sec_age_max r) (sec_is_active r) (sec_created_at r)
      (sec_updated_at r)
  else r.

Definition mark_read (id now : Z) (m : ContactMessage) : ContactMessage :=
  if msg_id m =? id then
    mkMessage (msg_id m) (msg_name m) (msg_email m) (msg_phone m)
      (msg_subject m) (msg_message m) "read" (msg_created_at m) now
  else m.

Definition count_if {A} (f : A -> bool) (l : list A) : Z :=
  Z.of_nat (List.length (filter f l)).

(** The effect of one statement that does not fail, at time [now].
    [INSERT OR IGNORE] draws its rowid before the uniqueness check, so a
    row that is ignored still uses up a rowid of the sequence. *)
Definition exec {X} (c : Stmt X) (now : Z) (s : Store) : X * Store :=
  match c in Stmt X return X * Store with
  | SelectStudentId sn pn ph =>
      (option_map st_id (find (same_student sn pn ph) (students s)), s)
  | SelectActiveSection name =>
      (find (active_named name) (sections s), s)
  | InsertStudent sn age pn ph em sec plan cm =>
      let id := next_rowid (students_seq s) (map st_id (students s)) in
      let row := mkStudent id sn age pn ph em sec plan cm
                   now "pending" "unpaid" now now in
      (mkRun id 1,
       mkStore (students s ++ [row]) id (sections s) (sections_seq s)
         (contact_messages s))
  | IncrementEnrollment name =>
      (count_if (fun r => (sec_name r =? name)%string) (sections s),
       mkStore (students s) (students_seq s)
         (map (bump_enrollment name) (sections s)) (sections_seq s)
         (contact_messages s))
  | InsertOrIgnoreSection d =>
      let id := next_rowid (sections_seq s) (map sec_id (sections s)) in
      if existsb (fun r => (sec_name r =? seed_name d)%string) (sections s) then
        (0,
         mkStore (students s) (students_seq s) (sections s) id
           (contact_messages s))
      else
        let row := mkSection id (seed_name d) (seed_description d)
                     (seed_capacity d) 0 (seed_fee_termly d)
                     (seed_fee_annual d) (seed_age_min d) (seed_age_max d)
                     true now now in
        (1,
         mkStore (students s) (students_seq s) (sections s ++ [row]) id
           (contact_messages s))
  | SelectStudents conds limit offset =>
      (limit_offset limit offset
         (order_by_created_at_desc (filter (where_holds conds) (students s))),
       s)
  | CountStudents conds => (count_if (where_holds conds) (students s), s)
  | SelectMessage id =>
      (find (fun m => msg_id m =? id) (contact_messages s), s)
  | MarkMessageRead id =>
      (count_if (fun m => msg_id m =? id) (contact_messages s),
       mkStore (students s) (students_seq s) (sections s) (sections_seq s)
         (map (mark_read id now) (contact_messages s)))
  | SendEmail _ _ _ => (tt, s)
  end.

(** ** Handlers as programs *)

(** What a rejected promise or a throw carries: a store fault, a mail
    fault, or the [TypeError] of a method called on [undefined]. *)
Inductive Error := StoreError | MailError | TypeError.

(** An [async] function body: it returns, throws, or awaits one statement
    and goes on with its result ([k]) or with the rejection ([h], the
    enclosing [catch] clauses). *)
Inductive Prog (A : Type) : Type :=
| Ret (a : A)
| Throw (e : Error)
| Await {X : Type} (c : Stmt X) (k : X -> Prog A) (h : Error -> Prog A).

Arguments Ret {A} a.
Arguments Throw {A} e.
Arguments Await {A X} c k h.

Fixpoint bind {A B} (p : Prog A) (f : A -> Prog B) : Prog B :=
  match p with
  | Ret a => f a
  | Throw e => Throw e
  | Await c k h => Await c (fun x => bind (k x) f) (fun e => bind (h e) f)
  end.

(** [try { p } catch (e) { handler e }] *)
Fixpoint try_catch {A} (p : Prog A) (handler : Error -> Prog A) : Prog A :=
  match p with
  | Ret a => Ret a
  | Throw e => handler e
  | Await c k h =>
      Await c (fun x => try_catch (k x) handler)
        (fun e => try_catch (h e) handler)
  end.

(** [await db.run(...)], [await sendEmail(...)] outside any [try]. *)
Definition await {X} (c : Stmt X) : Prog X := Await c Ret Throw.

Notation "x <- p ;; q" := (bind p (fun x => q))
  (at level 61, p at next level, right associativity).

Fixpoint for_each {A} (l : list A) (body : A -> Prog unit) : Prog unit :=
  match l with
  | [] => Ret tt
  | x :: l' => _ <- body x ;; for_each l' body
  end.

(** ** Running programs against the store *)

Inductive Op :=
| OpSelectStudentId | OpSelectActiveSection | OpInsertStudent
| OpIncrementEnrollment | OpInsertOrIgnoreSection | OpSelectStudents
| OpCountStudents | OpSelectMessage | OpMarkMessageRead | OpSendEmail.

Definition op_of {X} (c : Stmt X) : Op :=
  match c with
  | SelectStudentId _ _ _ => OpSelectStudentId
  | SelectActiveSection _ => OpSelectActiveSection
  | InsertStudent _ _ _ _ _ _ _ _ => OpInsertStudent
  | IncrementEnrollment _ => OpIncrementEnrollment
  | InsertOrIgnoreSection _ => OpInsertOrIgnoreSection
  | SelectStudents _ _ _ => OpSelectStudents
  | CountStudents _ => OpCountStudents
  | SelectMessage _ => OpSelectMessage
  | MarkMessageRead _ => OpMarkMessageRead
  | SendEmail _ _ _ => OpSendEmail
  end.

Definition is_mail (o : Op) : bool :=
  match o with OpSendEmail => true | _ => false end.

(** One await as the outside world saw it: which statement, and whether it
    resolved. *)
Record Event := mkEvent { ev_op : Op; ev_ok : bool }.

(** The environment decides, for the n-th await of a run, whether a store
    statement fails, whether a mail fails, and what time it is. *)
Record Env := mkEnv {
  db_fails : nat -> bool;
  mail_fails : nat -> bool;
  clock : nat -> Z
}.

Definition rejects (env : Env) (o : Op) (n : nat) : bool :=
  if is_mail o then mail_fails env n else db_fails env n.

Definition error_of (o : Op) : Error :=
  if is_mail o then MailError else StoreError.

Record World := mkWorld {
  store : Store;
  tick : nat;
  log : list Event
}.

Definition start (s : Store) : World := mkWorld s 0 [].

Definition advance (w : World) (s : Store) (e : Event) : World :=
  mkWorld s (S (tick w)) (log w ++ [e]).

Inductive Outcome (A : Type) : Type :=
| Returned (a : A)
| Uncaught (e : Error).

Arguments Returned {A} a.
Arguments Uncaught {A} e.

(** A handler run to completion with nothing else in between.  A statement
    that fails leaves the store as it was. *)
Fixpoint run_from {A} (p : Prog A) (env : Env) (w : World)
    : Outcome A * World :=
  match p with
  | Ret a => (Returned a, w)
  | Throw e => (Uncaught e, w)
  | Await c k h =>
      if rejects env (op_of c) (tick w) then
        run_from (h (error_of (op_of c))) env
          (advance w (store w) (mkEvent (op_of c) false))
      else
        run_from (k (fst (exec c (clock env (tick w)) (store w)))) env
          (advance w (snd (exec c (clock env (tick w)) (store w)))
             (mkEvent (op_of c) true))
  end.

Definition run {A} (p : Prog A) (env : Env) (s : Store) : Outcome A * World :=
  run_from p env (start s).

(** One turn of the event loop for one handler: up to its next await. *)
Definition step {A} (p : Prog A) (env : Env) (w : World) : Prog A * World :=
  match p with
  | Await c k h =>
      if rejects env (op_of c) (tick w) then
        (h (error_of (op_of c)),
         advance w (store w) (mkEvent (op_of c) false))
      else
        (k (fst (exec c (clock env (tick w)) (store w))),
         advance w (snd (exec c (clock env (tick w)) (store w)))
           (mkEvent (op_of c) true))
  | _ => (p, w)
  end.

Fixpoint replace_nth {A} (i : nat) (x : A) (l : list A) : list A :=
  match l, i with
  | [], _ => []
  | _ :: l', O => x :: l'
  | y :: l', S i' => y :: replace_nth i' x l'
  end.

(** Several handlers in flight: the schedule names, turn by turn, the
    handler the event loop resumes. *)
Fixpoint interleave {A} (sched : list nat) (pool : list (Prog A))
    (env : Env) (w : World) : list (Prog A) * World :=
  match sched with
  | [] => (pool, w)
  | i :: sched' =>
      match nth_error pool i with
      | Some p =>
          interleave sched' (replace_nth i (fst (step p env w)) pool) env
            (snd (step p env w))
      | None => interleave sched' pool env w
      end
  end.

Definition finished {A} (p : Prog A) : option (Outcome A) :=
  match p with
  | Ret a => Some (Returned a)
  | Throw e => Some (Uncaught e)
  | Await _ _ _ => None
  end.

(** Handlers one after another, each run to completion before the next
    starts; the stores in between are kept. *)
Fixpoint run_seq {A} (ps : list (Prog A)) (env : Env) (w : World)
    : list (Outcome A * Store) :=
  match ps with
  | [] => []
  | p :: ps' =>
      (fst (run_from p env w), store (snd (run_from p env w)))
      :: run_seq ps' env (snd (run_from p env w))
  end.

(** ** Requests and responses *)

(** [req.body] of a registration submission. *)
Record Body := mkBody {
  parentName : string;
  phone : string;
  email : option string;
  studentName : string;
  studentAge : Z;
  section : string;
  paymentPlan : string;
  comments : option string
}.

(** A value of [req.query] that the handler uses as a number.  The handler
    reads it in two ways, and it is kept as these two readings:
    [parseInt(v)], an integer or [NaN] ([None]), and the number that
    arithmetic makes of it, [v - 1], [v * w], [w / v].  They differ on
    [1e1] (1 and 10), [1.5] (1 and 1.5), [7up] (7 and [NaN]). *)
Record QueryValue := mkQueryValue {
  parseInt : option Z;
  toNumber : Num.t
}.

(** A decimal integer, on which both readings agree; so do they on the
    numbers [1] and [20] that stand for an absent [page] and [limit]. *)
Definition plain (z : Z) : QueryValue := mkQueryValue (Some z) (Num.of_Z z).

(** [req.query] of the listing. *)
Record Query := mkQuery {
  q_status : option string;
  q_section : option string;
  q_page : option QueryValue;
  q_limit : option QueryValue
}.

Record FieldError := mkFieldError { fe_path : string; fe_msg : string }.

(** The [pagination] object as JSON shows it: a number that is not finite
    is printed as [null] ([None]). *)
Record Pagination := mkPagination {
  pg_page : option Z;
  pg_limit : option Z;
  pg_total : Z;
  pg_pages : option Z
}.

Inductive Data :=
| NoData
| Errors (errors : list FieldError)
| Registration (registrationId : string) (studentId : Z)
    (section paymentPlan : string)
| Listing (rows : list Student) (pagination : Pagination)
| Message (m : ContactMessage).

(** [res.status(code).json({ success, message, data | errors | pagination })] *)
Record Response := mkResponse {
  http_status : Z;
  success : bool;
  message : option string;
  data : Data
}.

Definition failure (code : Z) (msg : string) : Response :=
  mkResponse code false (Some msg) NoData.

(** ** Validation (routes/registration.js, registrationValidation) *)

(** The two syntax checks of the validator library the routes build on. *)
Class Validator := {
  isMobilePhone : string -> bool;
  isEmail : string -> bool
}.

Definition isLength (min max : nat) (s : string) : bool :=
  (min <=? Js.char_count s)%nat && (Js.char_count s <=? max)%nat.

Definition isInt (min max : Z) (z : Z) : bool := (min <=? z) && (z <=? max).

Definition isIn (allowed : list string) (s : string) : bool :=
  existsb (String.eqb s) allowed.

Definition check (ok : bool) (path msg : string) : list FieldError :=
  if ok then [] else [mkFieldError path msg].

(** [.optional()]: a field that is absent is not checked. *)
Definition optional {A} (o : option A) (ok : A -> bool) (path msg : string)
    : list FieldError :=
  match o with
  | None => []
  | Some v => check (ok v) path msg
  end.

Definition valid_sections : list string :=
  ["Nursery"; "Primary"; "Islamiyya"; "Tahfiz"; "Higher Islamic";
   "Mosque/Majlis"].

Definition valid_plans : list string := ["Termly Plan"; "Annual Plan"].

(** [validationResult(req).array()]: one entry per failing field. *)
Definition registrationValidation `{Validator} (b : Body) : list FieldError :=
  check (isLength 2 100 (Js.trim (parentName b))) "parentName"
    "Parent name must be between 2-100 characters"
  ++ check (isMobilePhone (phone b)) "phone"
    "Please provide a valid phone number"
  ++ optional (email b) isEmail "email"
    "Please provide a valid email address"
  ++ check (isLength 2 100 (Js.trim (studentName b))) "studentName"
    "Student name must be between 2-100 characters"
  ++ check (isInt 3 30 (studentAge b)) "studentAge"
    "Student age must be between 3-30 years"
  ++ check (isIn valid_sections (section b)) "section"
    "Please select a valid section"
  ++ check (isIn valid_plans (paymentPlan b)) "paymentPlan"
    "Please select a valid payment plan"
  ++ optional (comments b) (isLength 0 500) "comments"
    "Comments must not exceed 500 characters".

(** The [.trim()] sanitizers write the trimmed names back into [req.body]. *)
Definition sanitize (b : Body) : Body :=
  mkBody (Js.trim (parentName b)) (phone b) (email b)
    (Js.trim (studentName b)) (studentAge b) (section b) (paymentPlan b)
    (comments b).

(** ** Registration (routes/registration.js) *)

(** [`MBU${result.id.toString().padStart(6, '0')}`] *)
Definition registration_id (id : Z) : string :=
  ("MBU" ++ Js.padStart 6 "0" (Js.toString id))%string.

Definition confirmation_subject : string :=
  "Registration Confirmation - Musab Bin Umair Memorial School".

(** [if (email) { try { await sendEmail(...) } catch (emailError) { } }] *)
Definition send_confirmation (email : option string) (id : Z) : Prog unit :=
  match email with
  | Some to =>
      if Js.truthy email then
        try_catch (await (SendEmail to confirmation_subject (registration_id id)))
          (fun _ => Ret tt)
      else Ret tt
  | None => Ret tt
  end.

(** [router.post('/', registrationValidation, async (req, res) => ...)] *)
Definition post_registration `{Validator} (req : Body) : Prog Response :=
  try_catch
    (match registrationValidation req with
     | (_ :: _) as errors =>
         Ret (mkResponse 400 false (Some "Validation failed") (Errors errors))
     | [] =>
         let b := sanitize req in
         existingStudent <-
           await (SelectStudentId (studentName b) (parentName b) (phone b)) ;;
         match existingStudent with
         | Some _ =>
             Ret (failure 409
                    "A student with this information is already registered")
         | None =>
             sectionInfo <- await (SelectActiveSection (section b)) ;;
             match sectionInfo with
             | None => Ret (failure 400 "Selected section is not available")
             | Some info =>
                 if sec_current_enrollment info >=? sec_capacity info then
                   Ret (failure 400 "Selected section is at full capacity")
                 else
                   result <-
                     await (InsertStudent (studentName b) (studentAge b)
                              (parentName b) (phone b) (email b) (section b)
                              (paymentPlan b) (comments b)) ;;
                   _ <- await (IncrementEnrollment (section b)) ;;
                   _ <- send_confirmation (email b) (lastID result) ;;
                   Ret (mkResponse 201 true (Some "Registration successful")
                          (Registration (registration_id (lastID result))
                             (lastID result) (section b) (paymentPlan b)))
             end
         end
     end)
    (fun _ => Ret (failure 500 "Registration failed. Please try again.")).

(** The [if (status) ...; if (section) ...] clauses that extend a query. *)
Definition where_clauses (status section : option string)
    : list (Column * string) :=
  (match status with
   | Some v => if Js.truthy status then [(ColStatus, v)] else []
   | None => []
   end)
  ++ (match section with
      | Some v => if Js.truthy section then [(ColSection, v)] else []
      | None => []
      end).

(** [db.all(query, [...params, parseInt(limit), offset])]: SQLite runs the
    query when the two bounds are integers, and refuses it with a datatype
    mismatch otherwise, in which case the call rejects. *)
Definition select_students (params : list (Column * string))
    (limit : option Z) (offset : Num.t) : Prog (list Student) :=
  match limit, Num.to_integer offset with
  | Some l, Some o => await (SelectStudents params l o)
  | _, _ => Throw StoreError
  end.

(** [router.get('/', ...)]: the listing. *)
Definition get_registrations (q : Query) : Prog Response :=
  try_catch
    (let status := q_status q in
     let section := q_section q in
     let page := match q_page q with Some p => p | None => plain 1 end in
     let limit := match q_limit q with Some l => l | None => plain 20 end in
     let offset := Num.mul (Num.sub (toNumber page) 1) (toNumber limit) in
     let params := where_clauses status section in
     students <- select_students params (parseInt limit) offset ;;
     let countParams := where_clauses status section in
     total <- await (CountStudents countParams) ;;
     Ret (mkResponse 200 true None
            (Listing students
               (mkPagination (parseInt page) (parseInt limit) total
                  (Num.to_integer
                     (Num.ceil (Num.div (Num.of_Z total) (toNumber limit))))))))
    (fun _ => Ret (failure 500 "Failed to fetch registrations")).

(** ** Contact messages (routes/contact.js) *)

Definition with_status (m : ContactMessage) (st : string) : ContactMessage :=
  mkMessage (msg_id m) (msg_name m) (msg_email m) (msg_phone m)
    (msg_subject m) (msg_message m) st (msg_created_at m) (msg_updated_at m).

(** [router.get('/:id', ...)] *)
Definition get_contact_message (id : Z) : Prog Response :=
  try_catch
    (message <- await (SelectMessage id) ;;
     match message with
     | None => Ret (failure 404 "Contact message not found")
     | Some m =>
         m' <- (if (msg_status m =? "unread")%string then
                  _ <- await (MarkMessageRead id) ;;
                  Ret (with_status m "read")
                else Ret m) ;;
         Ret (mkResponse 200 true None (Message m'))
     end)
    (fun _ => Ret (failure 500 "Failed to fetch contact message")).

(** ** Start-up seed (config/database.js, insertDefaultSections) *)

Definition default_sections : list SectionSeed :=
  [ mkSeed "Nursery" "Early childhood Islamic education for ages 3-5"
      30 12000 32000 3 5;
    mkSeed "Primary School" "Primary education with Islamic values integration"
      40 15000 40000 6 12;
    mkSeed "Islamiyya" "Foundational Islamic studies program"
      50 10000 28000 7 16;
    mkSeed "Tahfiz" "Quran memorization program"
      25 18000 48000 8 18;
    mkSeed "Higher Islamic" "Advanced Islamic studies for older students"
      35 20000 55000 16 25;
    mkSeed "Mosque/Majlis" "Community programs and adult education"
      100 5000 15000 18 100 ].

Definition insertDefaultSections : Prog unit :=
  for_each default_sections
    (fun section => _ <- await (InsertOrIgnoreSection section) ;; Ret tt).

(** ** Vocabulary of the properties *)

(** The row the duplicate check of a submission would find. *)
Definition existing_student (req : Body) (s : Store) : option Student :=
  find (same_student (Js.trim (studentName req)) (Js.trim (parentName req))
          (phone req)) (students s).

(** The row the section lookup of a submission would find. *)
Definition active_section (name : string) (s : Store) : option SectionRow :=
  find (active_named name) (sections s).

(** The [students] row a submission [req] becomes, with rowid [id], at
    time [now]. *)
Definition registration_row (req : Body) (id now : Z) : Student :=
  mkStudent id (Js.trim (studentName req)) (studentAge req)
    (Js.trim (parentName req)) (phone req) (email req) (section req)
    (paymentPlan req) (comments req) now "pending" "unpaid" now now.

Definition enrolled_one_more (info : SectionRow) : SectionRow :=
  mkSection (sec_id info) (sec_name info) (sec_description info)
    (sec_capacity info) (sec_current_enrollment info + 1)
    (sec_fee_termly info) (sec_fee_annual info) (sec_age_min info)
    (sec_age_max info) (sec_is_active info) (sec_created_at info)
    (sec_updated_at info).

Definition created : Response -> bool :=
  fun r => http_status r =? 201.

Definition full_capacity : Response :=
  failure 400 "Selected section is at full capacity".

Definition conflict : Response :=
  failure 409 "A student with this information is already registered".

Definition internal_error : Response :=
  failure 500 "Registration failed. Please try again.".

(** What the log of a run shows of the confirmation mail of a submission
    whose awaits before it were not rejected. *)
Definition mail_events (env : Env) (req : Body) (n : nat) : list Event :=
  if Js.truthy (email req) then [mkEvent OpSendEmail (negb (mail_fails env n))]
  else [].

(** The store once the row of [req] is inserted under rowid [id]. *)
Definition with_row (s : Store) (req : Body) (id now : Z) : Store :=
  mkStore (students s ++ [registration_row req id now]) id (sections s)
    (sections_seq s) (contact_messages s).

(** The store once the enrollment of the section called [name] is raised. *)
Definition with_increment (s : Store) (name : string) : Store :=
  mkStore (students s) (students_seq s)
    (map (bump_enrollment name) (sections s)) (sections_seq s)
    (contact_messages s).

Definition new_student_id (s : Store) : Z :=
  next_rowid (students_seq s) (map st_id (students s)).

Definition row_count (s : Store) : Z := Z.of_nat (List.length (students s)).

(** The enrollment counter of the section called [name] (0 when there is
    no such section). *)
Definition enrollment (name : string) (s : Store) : Z :=
  match find (fun r => (sec_name r =? name)%string) (sections s) with
  | Some r => sec_current_enrollment r
  | None => 0
  end.

(** After the submission [req] has been handled from store [s] under
    [env], the new row and the raised counter are both there or neither
    is. *)
Definition applied_as_unit `{Validator} (env : Env) (s : Store) (req : Body)
    : Prop :=
  let s' := store (snd (run (post_registration req) env s)) in
  (row_count s' = row_count s
   /\ enrollment (section req) s' = enrollment (section req) s)
  \/ (row_count s' = row_count s + 1
      /\ enrollment (section req) s' = enrollment (section req) s + 1).

(** The seed loop over any catalog. *)
Definition seed_all (ds : list SectionSeed) : Prog unit :=
  for_each ds
    (fun section => _ <- await (InsertOrIgnoreSection section) ;; Ret tt).

Definition has_section (name : string) (s : Store) : Prop :=
  In name (map sec_name (sections s)).

(** The listing filters as the interface describes them: a filter that is
    given (and not empty) asks for equality on its column. *)
Definition passes_filters (status section : option string) (r : Student)
    : bool :=
  (match status with
   | Some v => if (v =? "")%string then true else (st_status r =? v)%string
   | None => true
   end)
  && (match section with
      | Some v => if (v =? "")%string then true else (st_section r =? v)%string
      | None => true
      end).







(** What the duplicate check compares. *)
Definition triple (req : Body) : string * string * string :=
  (Js.trim (studentName req), Js.trim (parentName req), phone req).

Definition is_created (x : Outcome Response * Store) : Prop :=
  exists r, fst x = Returned r /\ created r = true.

Definition is_full (x : Outcome Response * Store) : Prop :=
  fst x = Returned full_capacity.

(** In the store of [x], the active section [name] has capacity [cap] and
    no more enrollments than that. *)
Definition within_capacity (name : string) (cap : Z)
    (x : Outcome Response * Store) : Prop :=
  exists info,
    active_section name (snd x) = Some info
    /\ sec_capacity info = cap
    /\ sec_current_enrollment info <= cap.

(** A submission fit to be registered in section [name]. *)
Definition valid_for `{Validator} (name : string) (req : Body) : Prop :=
  registrationValidation req = [] /\ section req = name.

Definition answered_created (p : Prog Response) : bool :=
  match p with
  | Ret r => created r
  | _ => false
  end.

Definition answered_full (p : Prog Response) : bool :=
  match p with
  | Ret r =>
      (http_status r =? 400)
      && match message r with
         | Some m => (m =? "Selected section is at full capacity")%string
         | None => false
         end
  | _ => false
  end.

(** The atomicity of insert and increment, for every environment. *)
Definition insert_and_increment_atomic : Prop :=
  forall (V : Validator) (env : Env) (s : Store) (req : Body),
    applied_as_unit env s req.

(** The outcome of concurrent submissions to one section, for every
    interleaving of their awaits that lets each of them answer. *)
Definition concurrent_submissions_serialized : Prop :=
  forall (V : Validator) (env : Env) (s : Store) (reqs : list Body)
         (name : string) (info : SectionRow) (K : nat) (sched : list nat),
    (forall n, db_fails env n = false) ->
    Forall (valid_for name) reqs ->
    NoDup (map triple reqs) ->
    Forall (fun r => existing_student r s = None) reqs ->
    active_section name s = Some info ->
    sec_capacity info - sec_current_enrollment info = Z.of_nat K ->
    (K < List.length reqs)%nat ->
    let final := interleave sched (map post_registration reqs) env (start s) in
    Forall (fun p => finished p <> None) (fst final) ->
    List.length (filter answered_created (fst final)) = K
    /\ List.length (filter answered_full (fst final))
       = (List.length reqs - K)%nat
    /\ enrollment name (store (snd final)) <= sec_capacity info.

(** ** Sample data *)

Module Sample.

Definition is_digit (c : ascii) : bool :=
  (48 <=? nat_of_ascii c)%nat && (nat_of_ascii c <=? 57)%nat.

Fixpoint all_digits (s : string) : bool :=
  match s with
  | EmptyString => true
  | String c s' => is_digit c && all_digits s'
  end.

(** A stand-in for the phone check: an optional plus sign, then ten to
    fifteen digits. *)
Definition phone_like (s : string) : bool :=
  let digits := match s with
                | String "+" rest => rest
                | _ => s
                end in
  all_digits digits && (10 <=? String.length digits)%nat
  && (String.length digits <=? 15)%nat.

Fixpoint after_at (s : string) : option string :=
  match s with
  | EmptyString => None
  | String "@" rest => Some rest
  | String _ rest => after_at rest
  end.

(** A stand-in for the email check: text, an at sign, text. *)
Definition email_like (s : string) : bool :=
  match s, after_at s with
  | String "@" _, _ => false
  | _, Some EmptyString => false
  | _, Some _ => true
  | _, None => false
  end.

Definition validator : Validator :=
  {| isMobilePhone := phone_like; isEmail := email_like |}.

(** No fault, and a clock that moves one second per statement. *)
Definition calm : Env :=
  mkEnv (fun _ => false) (fun _ => false) (fun n => 1700000000 + Z.of_nat n).

(** The store fails its n-th statement (counting from 0), nothing else. *)
Definition failing_at (k : nat) : Env :=
  mkEnv (fun n => (n =? k)%nat) (fun _ => false)
    (fun n => 1700000000 + Z.of_nat n).

(** The mail transport rejects every message. *)
Definition no_mail : Env :=
  mkEnv (fun _ => false) (fun _ => true) (fun n => 1700000000 + Z.of_nat n).

(** The store after the first start-up. *)
Definition seeded : Store :=
  store (snd (run insertDefaultSections calm empty_store)).

Definition fatima : Body :=
  mkBody "Amina Yusuf" "+2348012345678" None "Fatima Yusuf" 7 "Tahfiz"
    "Annual Plan" None.

Definition fatima_with_mail : Body :=
  mkBody "Amina Yusuf" "+2348012345678" (Some "amina@example.org")
    "Fatima Yusuf" 7 "Tahfiz" "Annual Plan" None.

Definition fatima_primary : Body :=
  mkBody "Amina Yusuf" "+2348012345678" None "Fatima Yusuf" 7 "Primary"
    "Annual Plan" None.

(** The n-th of a family of applicants for Tahfiz. *)
Definition applicant (n : nat) : Body :=
  mkBody "Amina Yusuf" "+2348012345678" None
    ("Student " ++ Js.toString (Z.of_nat n))%string 8 "Tahfiz" "Termly Plan"
    None.

Definition after_all (s : Store) (reqs : list Body) : Store :=
  last (map snd
          (run_seq (map (@post_registration validator) reqs) calm (start s)))
       s.

(** Tahfiz (capacity 25) after 24 and after 25 registrations. *)
Definition tahfiz_one_left : Store := after_all seeded (map applicant (seq 1 24)).

Definition tahfiz_full : Store := after_all seeded (map applicant (seq 1 25)).

Definition pending_row (id : Z) : Student :=
  mkStudent id "Student" 8 "Parent" "+2348012345678" None "Tahfiz"
    "Termly Plan" None (1700000000 + id) "pending" "unpaid" (1700000000 + id)
    (1700000000 + id).

(** A store with 25 pending registrations and one approved one. *)
Definition twenty_five_pending : Store :=
  mkStore
    (map pending_row (map Z.of_nat (seq 1 25))
     ++ [mkStudent 26 "Other" 9 "Parent" "+2348012345679" None "Nursery"
           "Annual Plan" None 1700000100 "approved" "unpaid" 1700000100
           1700000100])
    26 (sections seeded) 6 [].

Definition unread_message : ContactMessage :=
  mkMessage 1 "Bello" "bello@example.org" None "Admission dates"
    "When does the next term start?" "unread" 1700000000 1700000000.

Definition one_unread : Store :=
  mkStore [] 0 (sections seeded) 6 [unread_message].

(** The Tahfiz row of the seed with [n] enrollments. *)
Definition tahfiz_row (n : Z) : SectionRow :=
  mkSection 4 "Tahfiz" "Quran memorization program" 25 n 18000 48000 8 18
    true 1700000003 1700000003.


(** [?status=pending&page=2&limit=1e1]: [parseInt] reads the limit as 1,
    arithmetic as 10. *)
Definition pending_page_two_by_1e1 : Query :=
  mkQuery (Some "pending") None (Some (plain 2))
    (Some (mkQueryValue (Some 1) (Num.of_Z 10))).

(** [?status=pending&limit=-1], [?status=pending&limit=0],
    [?status=pending&page=0&limit=10] and [?status=pending&limit=abc]. *)
Definition pending_limit_minus_one : Query :=
  mkQuery (Some "pending") None None (Some (plain (-1))).

Definition pending_limit_zero : Query :=
  mkQuery (Some "pending") None None (Some (plain 0)).

Definition pending_page_zero : Query :=
  mkQuery (Some "pending") None (Some (plain 0)) (Some (plain 10)).

Definition pending_limit_abc : Query :=
  mkQuery (Some "pending") None None (Some (mkQueryValue None Num.NaN)).

Definition round_robin : list nat := [0; 1; 0; 1; 0; 1; 0; 1]%nat.

End Sample.

(** ** Invariants of the store *)

(** No section holds more enrollments than its capacity. *)
Definition capacity_respected (s : Store) : Prop :=
  Forall (fun r => sec_current_enrollment r <= sec_capacity r) (sections s).

(** [name TEXT UNIQUE NOT NULL] on [sections]. *)
Definition unique_names (s : Store) : Prop :=
  NoDup (map sec_name (sections s)).

(** The number of [students] rows of the section called [name]. *)
Definition rows_in (name : string) (s : Store) : Z :=
  count_if (fun r => (st_section r =? name)%string) (students s).

(** What the duplicate check reads of a row. *)
Definition row_triple (r : Student) : string * string * string :=
  (st_student_name r, st_parent_name r, st_phone r).

(** Rowids grow along the table, and no two rows agree on student name,
    parent name and phone. *)
Definition students_wellformed (s : Store) : Prop :=
  StronglySorted Z.lt (map st_id (students s))
  /\ NoDup (map row_triple (students s)).



(** Reading an identifier back: the digits after the school code. *)
Definition parse_registration_id (s : string) : option Z :=
  match s with
  | String "M" (String "B" (String "U" digits)) =>
      option_map Z.of_uint (NilZero.uint_of_string digits)
  | _ => None
  end.

(** ** Access gate (middleware/auth.js) *)

Module Auth.

(** What a verified token carries: [{ id, username, role }]. *)
Record User := mkUser { user_id : Z; username : string; role : string }.

(** What a middleware does with a request: answer it itself, or call
    [next()] with the user it found on the request or attached to it. *)
Inductive Verdict :=
| Answer (code : Z) (message : string)
| Next (user : option User).

Fixpoint no_space (s : string) : bool :=
  match s with
  | EmptyString => true
  | String c rest => negb (Ascii.eqb c " ") && no_space rest
  end.

(** [String.prototype.split(' ')]: the pieces between single spaces. *)
Fixpoint split_space (s : string) : list string :=
  match s with
  | EmptyString => [EmptyString]
  | String c rest =>
      if Ascii.eqb c " " then EmptyString :: split_space rest
      else match split_space rest with
           | piece :: pieces => String c piece :: pieces
           | [] => [String c EmptyString]
           end
  end.

(** [authHeader && authHeader.split(' ')[1]] *)
Definition token_of (authHeader : option string) : option string :=
  if Js.truthy authHeader then
    match authHeader with
    | Some h => nth_error (split_space h) 1
    | None => None
    end
  else authHeader.

Section WithVerify.

(** [jwt.verify(token, process.env.JWT_SECRET, ...)]: the user of a token
    that is signed and not expired, nothing otherwise. *)
Variable verify : string -> option User.

Definition authenticateToken (authHeader : option string) : Verdict :=
  let token := token_of authHeader in
  match token with
  | Some t =>
      if Js.truthy token then
        match verify t with
        | None => Answer 403 "Invalid or expired token"
        | Some user => Next (Some user)
        end
      else Answer 401 "Access token required"
  | None => Answer 401 "Access token required"
  end.

End WithVerify.

Definition requireAdmin (user : option User) : Verdict :=
  match user with
  | Some u =>
      if isIn ["admin"; "super_admin"] (role u) then Next user
      else Answer 403 "Admin access required"
  | None => Answer 403 "Admin access required"
  end.

Definition requireSuperAdmin (user : option User) : Verdict :=
  match user with
  | Some u =>
      if (role u =? "super_admin")%string then Next user
      else Answer 403 "Super admin access required"
  | None => Answer 403 "Super admin access required"
  end.

(** A stand-in for token verification: one token is good. *)
Definition sample_verify (t : string) : option User :=
  if (t =? "good-token")%string then Some (mkUser 1 "admin" "super_admin")
  else None.

End Auth.

(** ** The other routes

    [router.get('/:id')] and [router.patch('/:id/status')] of
    routes/registration.js, [router.post('/')] and
    [router.patch('/:id/status')] of routes/contact.js, and [sendBulkEmail]
    of utils/email.js, over the same store.  Their statements are a family
    of their own; the bodies of the mails are left out, as before. *)

Module Routes.

(** [req.body] of a contact submission. *)
Record ContactBody := mkContact {
  c_name : string;
  c_email : string;
  c_phone : option string;
  c_subject : string;
  c_message : string
}.

(** [{ email, name }] *)
Record Recipient := mkRecipient { rcp_email : string; rcp_name : option string }.

(** One entry of what [sendBulkEmail] returns: [{ email, success,
    messageId }] or [{ email, success, error }]. *)
Record Delivery := mkDelivery {
  del_email : string;
  del_success : bool;
  del_messageId : option string;
  del_error : option Error
}.

Inductive Call : Type -> Type :=
| SelectStudent (id : Z) : Call (option Student)
| UpdateStudentStatus (status : string) (id : Z) : Call Z
| InsertMessage (name email : string) (phone : option string)
    (subject message : string) : Call RunResult
| UpdateMessageStatus (status : string) (id : Z) : Call Z
| Mail (to : option string) (subject : string) : Call unit
| CreateTransporter : Call unit
| SendMail (to subject : string) : Call string.

(** [SET status = ?, updated_at = CURRENT_TIMESTAMP WHERE id = ?] *)
Definition set_student_status (status : string) (id now : Z) (r : Student)
    : Student :=
  if st_id r =? id then
    mkStudent (st_id r) (st_student_name r) (st_student_age r)
      (st_parent_name r) (st_phone r) (st_email r) (st_section r)
      (st_payment_plan r) (st_comments r) (st_registration_date r) status
      (st_payment_status r) (st_created_at r) now
  else r.

Definition set_message_status (status : string) (id now : Z)
    (m : ContactMessage) : ContactMessage :=
  if msg_id m =? id then
    mkMessage (msg_id m) (msg_name m) (msg_email m) (msg_phone m)
      (msg_subject m) (msg_message m) status (msg_created_at m) now
  else m.

(** The effect of one call that is not rejected, at time [now], on the
    store and on the [sqlite_sequence] entry of [contact_messages];
    [receipt] is the message id the transport hands back. *)
Definition exec {X} (c : Call X) (now : Z) (receipt : string)
    (s : Store) (seq : Z) : X * (Store * Z) :=
  match c in Call X return X * (Store * Z) with
  | SelectStudent id => (find (fun r => st_id r =? id) (students s), (s, seq))
  | UpdateStudentStatus status id =>
      (count_if (fun r => st_id r =? id) (students s),
       (mkStore (map (set_student_status status id now) (students s))
          (students_seq s) (sections s) (sections_seq s)
          (contact_messages s), seq))
  | InsertMessage name email phone subject message =>
      let id := next_rowid seq (map msg_id (contact_messages s)) in
      (mkRun id 1,
       (mkStore (students s) (students_seq s) (sections s) (sections_seq s)
          (contact_messages s
           ++ [mkMessage id name email phone subject message "unread"
                 now now]), id))
  | UpdateMessageStatus status id =>
      (count_if (fun m => msg_id m =? id) (contact_messages s),
       (mkStore (students s) (students_seq s) (sections s) (sections_seq s)
          (map (set_message_status status id now) (contact_messages s)), seq))
  | Mail _ _ => (tt, (s, seq))
  | CreateTransporter => (tt, (s, seq))
  | SendMail _ _ => (receipt, (s, seq))
  end.

Inductive Task (A : Type) : Type :=
| Done (a : A)
| Raise (e : Error)
| Wait {X : Type} (c : Call X) (k : X -> Task A) (h : Error -> Task A).

Arguments Done {A} a.
Arguments Raise {A} e.
Arguments Wait {A X} c k h.

Fixpoint and_then {A B} (p : Task A) (f : A -> Task B) : Task B :=
  match p with
  | Done a => f a
  | Raise e => Raise e
  | Wait c k h =>
      Wait c (fun x => and_then (k x) f) (fun e => and_then (h e) f)
  end.

(** [try { p } catch (e) { handler e }] *)
Fixpoint guarded {A} (p : Task A) (handler : Error -> Task A) : Task A :=
  match p with
  | Done a => Done a
  | Raise e => handler e
  | Wait c k h =>
      Wait c (fun x => guarded (k x) handler) (fun e => guarded (h e) handler)
  end.

Definition wait {X} (c : Call X) : Task X := Wait c Done Raise.

Notation "x <~ p ;; q" := (and_then p (fun x => q))
  (at level 61, p at next level, right associativity).

Definition to_transport {X} (c : Call X) : bool :=
  match c with
  | Mail _ _ | CreateTransporter | SendMail _ _ => true
  | _ => false
  end.

(** A mail as the transport saw it. *)
Record Letter := mkLetter {
  letter_to : option string;
  letter_subject : string;
  letter_accepted : bool
}.

Definition letter_of {X} (c : Call X) (accepted : bool) : list Letter :=
  match c with
  | Mail to subject => [mkLetter to subject accepted]
  | SendMail to subject => [mkLetter (Some to) subject accepted]
  | _ => []
  end.

Record Desk := mkDesk {
  desk_store : Store;
  messages_seq : Z;
  awaited : nat;
  letters : list Letter
}.

Definition open (s : Store) (seq : Z) : Desk := mkDesk s seq 0 [].

Definition refused (env : Env) {X} (c : Call X) (n : nat) : bool :=
  if to_transport c then mail_fails env n else db_fails env n.

Definition fault_of {X} (c : Call X) : Error :=
  if to_transport c then MailError else StoreError.

Fixpoint run_from {A} (p : Task A) (env : Env) (receipt : nat -> string)
    (d : Desk) : Outcome A * Desk :=
  match p with
  | Done a => (Returned a, d)
  | Raise e => (Uncaught e, d)
  | Wait c k h =>
      if refused env c (awaited d) then
        run_from (h (fault_of c)) env receipt
          (mkDesk (desk_store d) (messages_seq d) (S (awaited d))
             (letters d ++ letter_of c false))
      else
        run_from
          (k (fst (exec c (clock env (awaited d)) (receipt (awaited d))
                     (desk_store d) (messages_seq d))))
          env receipt
          (mkDesk
             (fst (snd (exec c (clock env (awaited d)) (receipt (awaited d))
                          (desk_store d) (messages_seq d))))
             (snd (snd (exec c (clock env (awaited d)) (receipt (awaited d))
                          (desk_store d) (messages_seq d))))
             (S (awaited d)) (letters d ++ letter_of c true))
  end.

(** [res.status(code).json({ success, message, data, errors })] *)
Record Reply (A : Type) := mkReply {
  code : Z;
  ok : bool;
  text : option string;
  payload : option A;
  field_errors : list FieldError
}.

Arguments mkReply {A} code ok text payload field_errors.
Arguments code {A} r.
Arguments ok {A} r.
Arguments text {A} r.
Arguments payload {A} r.
Arguments field_errors {A} r.

Definition refuse {A} (c : Z) (msg : string) : Reply A :=
  mkReply c false (Some msg) None [].

(** [router.get('/:id', ...)] of routes/registration.js *)
Definition get_registration (id : Z) : Task (Reply Student) :=
  guarded
    (student <~ wait (SelectStudent id) ;;
     match student with
     | None => Done (refuse 404 "Registration not found")
     | Some r => Done (mkReply 200 true None (Some r) [])
     end)
    (fun _ => Done (refuse 500 "Failed to fetch registration")).

(** [router.patch('/:id/status', ...)] of routes/registration.js *)
Definition patch_registration_status (id : Z) (status : string)
    : Task (Reply unit) :=
  guarded
    (if negb (isIn ["pending"; "approved"; "rejected"] status) then
       Done (refuse 400
               "Invalid status. Must be pending, approved, or rejected")
     else
       result <~ wait (UpdateStudentStatus status id) ;;
       if result =? 0 then Done (refuse 404 "Registration not found")
       else Done (mkReply 200 true
                    (Some "Registration status updated successfully") None []))
    (fun _ => Done (refuse 500 "Failed to update registration status")).

(** [contactValidation] of routes/contact.js *)
Definition contactValidation `{Validator} (b : ContactBody)
    : list FieldError :=
  check (isLength 2 100 (Js.trim (c_name b))) "name"
    "Name must be between 2-100 characters"
  ++ check (isEmail (c_email b)) "email"
    "Please provide a valid email address"
  ++ optional (c_phone b) isMobilePhone "phone"
    "Please provide a valid phone number"
  ++ check (isLength 5 200 (Js.trim (c_subject b))) "subject"
    "Subject must be between 5-200 characters"
  ++ check (isLength 10 1000 (Js.trim (c_message b))) "message"
    "Message must be between 10-1000 characters".

(** [`MSG${result.id.toString().padStart(6, '0')}`] *)
Definition message_id (id : Z) : string :=
  ("MSG" ++ Js.padStart 6 "0" (Js.toString id))%string.

Definition auto_reply_subject : string :=
  "Thank you for contacting us - Musab Bin Umair Memorial School".

(** [router.post('/', contactValidation, ...)] of routes/contact.js;
    [admin_email] is [process.env.ADMIN_EMAIL]. *)
Definition post_contact `{Validator} (admin_email : option string)
    (req : ContactBody) : Task (Reply string) :=
  guarded
    (match contactValidation req with
     | (_ :: _) as errors =>
         Done (mkReply 400 false (Some "Validation failed") None errors)
     | [] =>
         let name := Js.trim (c_name req) in
         let subject := Js.trim (c_subject req) in
         let message := Js.trim (c_message req) in
         result <~
           wait (InsertMessage name (c_email req) (c_phone req) subject
                   message) ;;
         _ <~ guarded
                (wait (Mail admin_email
                         ("New Contact Message: " ++ subject)%string))
                (fun _ => Done tt) ;;
         _ <~ guarded (wait (Mail (Some (c_email req)) auto_reply_subject))
                (fun _ => Done tt) ;;
         Done (mkReply 201 true
                 (Some
                    "Your message has been sent successfully. We will get back to you soon.")
                 (Some (message_id (lastID result))) [])
     end)
    (fun _ => Done (refuse 500 "Failed to send message. Please try again.")).

(** [router.patch('/:id/status', ...)] of routes/contact.js *)
Definition patch_contact_status (id : Z) (status : string)
    : Task (Reply unit) :=
  guarded
    (if negb (isIn ["unread"; "read"; "replied"] status) then
       Done (refuse 400 "Invalid status. Must be unread, read, or replied")
     else
       result <~ wait (UpdateMessageStatus status id) ;;
       if result =? 0 then Done (refuse 404 "Contact message not found")
       else Done (mkReply 200 true
                    (Some "Message status updated successfully") None []))
    (fun _ => Done (refuse 500 "Failed to update message status")).

(** The [for (const recipient of recipients)] loop of [sendBulkEmail]. *)
(** [html.replace(/{{name}}/g, recipient.name || 'Student/Parent')]: a
    method of [html] is called, which throws a [TypeError] when the caller
    gave no [html].  The text it builds is left out, as the text of every
    mail is. *)
Definition personalise (html : option string) (recipient : Recipient)
    : Task unit :=
  match html with
  | Some _ => Done tt
  | None => Raise TypeError
  end.

Fixpoint bulk_loop (subject : string) (html : option string)
    (recipients : list Recipient) (results : list Delivery)
    : Task (list Delivery) :=
  match recipients with
  | [] => Done results
  | recipient :: rest =>
      entry <~ guarded
                 (_ <~ personalise html recipient ;;
                  info <~ wait (SendMail (rcp_email recipient) subject) ;;
                  Done (mkDelivery (rcp_email recipient) true (Some info)
                          None))
                 (fun error =>
                    Done (mkDelivery (rcp_email recipient) false None
                            (Some error))) ;;
      bulk_loop subject html rest (results ++ [entry])
  end.

(** [sendBulkEmail(recipients, { subject, text, html })] of utils/email.js *)
Definition sendBulkEmail (recipients : list Recipient) (subject : string)
    (html : option string) : Task (list Delivery) :=
  guarded
    (_ <~ wait CreateTransporter ;; bulk_loop subject html recipients [])
    (fun error => Raise error).

(** What the loop is meant to return: one entry per recipient, in order,
    telling whether the mail awaited at that step was accepted. *)
Fixpoint deliveries (env : Env) (receipt : nat -> string) (n : nat)
    (recipients : list Recipient) : list Delivery :=
  match recipients with
  | [] => []
  | recipient :: rest =>
      (if mail_fails env n then
         mkDelivery (rcp_email recipient) false None (Some MailError)
       else mkDelivery (rcp_email recipient) true (Some (receipt n)) None)
      :: deliveries env receipt (S n) rest
  end.

(** Sample data. *)
Definition receipts (n : nat) : string :=
  ("<" ++ Js.toString (Z.of_nat n) ++ "@school>")%string.

Definition bello : ContactBody :=
  mkContact "  Bello Musa " "bello@example.org" None "Admission dates"
    "When does the next term start?".

Definition parents : list Recipient :=
  [mkRecipient "amina@example.org" (Some "Amina");
   mkRecipient "bello@example.org" None;
   mkRecipient "chika@example.org" (Some "Chika")].

(** The transport rejects the mail awaited at step [k], no other. *)
Definition mail_failing_at (k : nat) : Env :=
  mkEnv (fun _ => false) (fun n => (n =? k)%nat)
    (fun n => 1700000000 + Z.of_nat n).

End Routes.

(** ** Auxiliary facts *)

Example registration_id_42 : registration_id 42 = "MBU000042".
Proof. reflexivity. Qed.

Example registration_id_long : registration_id 1234567 = "MBU1234567".
Proof. reflexivity. Qed.

Lemma fold_max_ge (ids : list Z) (x : Z) :
  In x ids -> x <= fold_right Z.max 0 ids.
Proof.
  induction ids as [|y ids IH]; simpl; [tauto|].
  intros [->|Hin]; [lia|]. specialize (IH Hin). lia.
Qed.

Lemma next_rowid_fresh (seq : Z) (ids : list Z) :
  ~ In (next_rowid seq ids) ids.
Proof.
  intros Hin. apply fold_max_ge in Hin. unfold next_rowid in Hin. lia.
Qed.

Lemma next_rowid_above_seq (seq : Z) (ids : list Z) :
  seq < next_rowid seq ids.
Proof. unfold next_rowid. lia. Qed.

Lemma bump_enrollment_named (name : string) (r : SectionRow) :
  sec_name r = name -> bump_enrollment name r = enrolled_one_more r.
Proof.
  intros <-. unfold bump_enrollment. now rewrite String.eqb_refl.
Qed.

Lemma active_named_bump (name other : string) (r : SectionRow) :
  active_named name (bump_enrollment other r) = active_named name r.
Proof.
  unfold bump_enrollment. now destruct (sec_name r =? other)%string.
Qed.

Lemma find_active_bump (name : string) (l : list SectionRow) :
  find (active_named name) (map (bump_enrollment name) l)
  = option_map enrolled_one_more (find (active_named name) l).
Proof.
  induction l as [|r l IH]; simpl; [reflexivity|].
  rewrite active_named_bump.
  destruct (active_named name r) eqn:E; [|exact IH].
  simpl. f_equal. apply bump_enrollment_named.
  unfold active_named in E. apply andb_prop in E as [E _].
  now apply String.eqb_eq.
Qed.

Lemma find_app_none {A} (f : A -> bool) (l l' : list A) :
  find f l = None -> find f (l ++ l') = find f l'.
Proof.
  induction l as [|x l IH]; simpl; [reflexivity|].
  destruct (f x); [discriminate|exact IH].
Qed.

Lemma find_app_some {A} (f : A -> bool) (l l' : list A) (x : A) :
  find f l = Some x -> find f (l ++ l') = Some x.
Proof.
  induction l as [|y l IH]; simpl; [discriminate|].
  destruct (f y); [trivial|exact IH].
Qed.

Lemma geb_false_lt (a b : Z) : (a >=? b) = false <-> a < b.
Proof. rewrite Z.geb_leb, Z.leb_gt. reflexivity. Qed.

Lemma geb_true_ge (a b : Z) : (a >=? b) = true <-> b <= a.
Proof. rewrite Z.geb_leb, Z.leb_le. reflexivity. Qed.

(** Running a handler one await at a time is running it. *)
Lemma run_from_step {A} (p : Prog A) (env : Env) (w : World) :
  run_from p env w = run_from (fst (step p env w)) env (snd (step p env w)).
Proof.
  destruct p as [a|e|X c k h]; simpl; try reflexivity.
  now destruct (rejects env (op_of c) (tick w)).
Qed.

(** A handler alone in the event loop, resumed often enough, ends as [run]
    says. *)
Lemma interleave_alone {A} (p : Prog A) (env : Env) :
  forall w, exists n p',
    interleave (repeat 0%nat n) [p] env w = ([p'], snd (run_from p env w))
    /\ finished p' = Some (fst (run_from p env w)).
Proof.
  induction p as [a|e|X c k IHk h IHh]; intros w.
  - exists 0%nat, (Ret a). split; reflexivity.
  - exists 0%nat, (Throw e). split; reflexivity.
  - simpl run_from. destruct (rejects env (op_of c) (tick w)) eqn:R.
    + destruct (IHh (error_of (op_of c))
                  (advance w (store w) (mkEvent (op_of c) false)))
        as (n & p' & E & F).
      exists (S n), p'. simpl. rewrite R. simpl. auto.
    + destruct (IHk (fst (exec c (clock env (tick w)) (store w)))
                  (advance w (snd (exec c (clock env (tick w)) (store w)))
                     (mkEvent (op_of c) true)))
        as (n & p' & E & F).
      exists (S n), p'. simpl. rewrite R. simpl. auto.
Qed.

(** ** The submission workflow, case by case *)

Section SubmissionCases.

Context `{Validator}.

Variables (env : Env) (w : World) (req : Body).

Local Abbreviation s := (store w).
Local Abbreviation t := (tick w).

Ltac resolve_await Hdb :=
  unfold rejects; simpl is_mail; cbv iota; rewrite ?Hdb; simpl.

(** All four statements go through: the row and the increment are both in
    the store, whatever becomes of the mail. *)
Lemma post_registration_created (info : SectionRow) :
  registrationValidation req = [] ->
  existing_student req s = None ->
  active_section (section req) s = Some info ->
  sec_current_enrollment info < sec_capacity info ->
  db_fails env t = false ->
  db_fails env (1 + t) = false ->
  db_fails env (2 + t) = false ->
  db_fails env (3 + t) = false ->
  let id := new_student_id s in
  let mail := mail_events env req (4 + t) in
  run_from (post_registration req) env w =
    (Returned
       (mkResponse 201 true (Some "Registration successful")
          (Registration (registration_id id) id (section req)
             (paymentPlan req))),
     mkWorld
       (with_increment (with_row s req id (clock env (2 + t))) (section req))
       (List.length mail + (4 + t))
       (log w
        ++ [mkEvent OpSelectStudentId true;
            mkEvent OpSelectActiveSection true;
            mkEvent OpInsertStudent true;
            mkEvent OpIncrementEnrollment true]
        ++ mail)).
Proof.
  intros Hval Hdup Hsec Hcap H0 H1 H2 H3 id mail. subst id mail.
  simpl in H1, H2, H3.
  unfold post_registration, with_increment, with_row, registration_row,
    mail_events, new_student_id.
  rewrite Hval.
  unfold existing_student in Hdup. unfold active_section in Hsec.
  simpl. resolve_await H0. rewrite Hdup. simpl. resolve_await H1.
  rewrite Hsec. simpl. rewrite (proj2 (geb_false_lt _ _) Hcap). simpl.
  resolve_await H2. resolve_await H3.
  unfold send_confirmation, advance. simpl. rewrite <- !app_assoc. simpl.
  destruct (email req) as [to|] eqn:Hto; simpl; [|reflexivity].
  destruct (negb (to =? ""))%string; simpl; [|reflexivity].
  unfold rejects, advance. simpl.
  destruct (mail_fails env (S (S (S (S (tick w))))));
    simpl; rewrite <- !app_assoc; reflexivity.
Qed.

(** Validation errors end the request before any statement. *)
Lemma post_registration_invalid :
  registrationValidation req <> [] ->
  run_from (post_registration req) env w =
    (Returned
       (mkResponse 400 false (Some "Validation failed")
          (Errors (registrationValidation req))), w).
Proof.
  intros Hval. unfold post_registration.
  destruct (registrationValidation req); [congruence|reflexivity].
Qed.

(** A row with the same names and phone ends it after the first lookup. *)
Lemma post_registration_conflict (r : Student) :
  registrationValidation req = [] ->
  db_fails env t = false ->
  existing_student req s = Some r ->
  run_from (post_registration req) env w =
    (Returned conflict, advance w s (mkEvent OpSelectStudentId true)).
Proof.
  intros Hval H0 Hdup. unfold post_registration. rewrite Hval.
  unfold existing_student in Hdup. simpl. resolve_await H0.
  rewrite Hdup. reflexivity.
Qed.

(** No active section of that name ends it after the second lookup. *)
Lemma post_registration_unavailable :
  registrationValidation req = [] ->
  db_fails env t = false ->
  db_fails env (1 + t) = false ->
  existing_student req s = None ->
  active_section (section req) s = None ->
  run_from (post_registration req) env w =
    (Returned (failure 400 "Selected section is not available"),
     mkWorld s (2 + t)
       (log w ++ [mkEvent OpSelectStudentId true;
                  mkEvent OpSelectActiveSection true])).
Proof.
  intros Hval H0 H1 Hdup Hsec. simpl in H1.
  unfold post_registration. rewrite Hval.
  unfold existing_student in Hdup. unfold active_section in Hsec.
  simpl. resolve_await H0. rewrite Hdup. simpl. resolve_await H1.
  rewrite Hsec. simpl. unfold advance. simpl.
  now rewrite <- app_assoc.
Qed.

(** A section without a free slot ends it after the second lookup. *)
Lemma post_registration_full (info : SectionRow) :
  registrationValidation req = [] ->
  db_fails env t = false ->
  db_fails env (1 + t) = false ->
  existing_student req s = None ->
  active_section (section req) s = Some info ->
  sec_capacity info <= sec_current_enrollment info ->
  run_from (post_registration req) env w =
    (Returned full_capacity,
     mkWorld s (2 + t)
       (log w ++ [mkEvent OpSelectStudentId true;
                  mkEvent OpSelectActiveSection true])).
Proof.
  intros Hval H0 H1 Hdup Hsec Hcap. simpl in H1.
  unfold post_registration. rewrite Hval.
  unfold existing_student in Hdup. unfold active_section in Hsec.
  simpl. resolve_await H0. rewrite Hdup. simpl. resolve_await H1.
  rewrite Hsec. simpl. rewrite (proj2 (geb_true_ge _ _) Hcap).
  simpl. unfold advance. simpl. now rewrite <- app_assoc.
Qed.

(** The insert is rejected: the outer [catch] answers 500 and the store
    is as it was. *)
Lemma post_registration_insert_fails (info : SectionRow) :
  registrationValidation req = [] ->
  existing_student req s = None ->
  active_section (section req) s = Some info ->
  sec_current_enrollment info < sec_capacity info ->
  db_fails env t = false ->
  db_fails env (1 + t) = false ->
  db_fails env (2 + t) = true ->
  run_from (post_registration req) env w =
    (Returned internal_error,
     mkWorld s (3 + t)
       (log w ++ [mkEvent OpSelectStudentId true;
                  mkEvent OpSelectActiveSection true;
                  mkEvent OpInsertStudent false])).
Proof.
  intros Hval Hdup Hsec Hcap H0 H1 H2. simpl in H1, H2.
  unfold post_registration. rewrite Hval.
  unfold existing_student in Hdup. unfold active_section in Hsec.
  simpl. resolve_await H0. rewrite Hdup. simpl. resolve_await H1.
  rewrite Hsec. simpl. rewrite (proj2 (geb_false_lt _ _) Hcap). simpl.
  resolve_await H2. unfold advance. simpl. now rewrite <- !app_assoc.
Qed.

(** The insert goes through and the increment is rejected: the outer
    [catch] answers 500; the row stays, the counter is as it was. *)
Lemma post_registration_increment_fails (info : SectionRow) :
  registrationValidation req = [] ->
  existing_student req s = None ->
  active_section (section req) s = Some info ->
  sec_current_enrollment info < sec_capacity info ->
  db_fails env t = false ->
  db_fails env (1 + t) = false ->
  db_fails env (2 + t) = false ->
  db_fails env (3 + t) = true ->
  run_from (post_registration req) env w =
    (Returned internal_error,
     mkWorld (with_row s req (new_student_id s) (clock env (2 + t))) (4 + t)
       (log w ++ [mkEvent OpSelectStudentId true;
                  mkEvent OpSelectActiveSection true;
                  mkEvent OpInsertStudent true;
                  mkEvent OpIncrementEnrollment false])).
Proof.
  intros Hval Hdup Hsec Hcap H0 H1 H2 H3. simpl in H1, H2, H3.
  unfold post_registration, with_row, registration_row, new_student_id.
  rewrite Hval.
  unfold existing_student in Hdup. unfold active_section in Hsec.
  simpl. resolve_await H0. rewrite Hdup. simpl. resolve_await H1.
  rewrite Hsec. simpl. rewrite (proj2 (geb_false_lt _ _) Hcap). simpl.
  resolve_await H2. resolve_await H3.
  unfold advance. simpl. now rewrite <- !app_assoc.
Qed.

(** Conversely, a 201 answer is given on that path only. *)
Lemma post_registration_created_inv (r : Response) (w' : World) :
  run_from (post_registration req) env w = (Returned r, w') ->
  created r = true ->
  registrationValidation req = []
  /\ existing_student req s = None
  /\ (exists info, active_section (section req) s = Some info
                   /\ sec_current_enrollment info < sec_capacity info)
  /\ db_fails env t = false /\ db_fails env (1 + t) = false
  /\ db_fails env (2 + t) = false /\ db_fails env (3 + t) = false.
Proof.
  unfold post_registration, existing_student, active_section,
    send_confirmation.
  destruct (registrationValidation req);
    [|simpl; intros [= <- <-]; discriminate].
  repeat first
    [ progress (unfold rejects; simpl)
    | match goal with
      | |- context [if db_fails ?e ?n then _ else _] =>
          destruct (db_fails e n) eqn:?
      | |- context [if mail_fails ?e ?n then _ else _] =>
          destruct (mail_fails e n)
      | |- context [option_map st_id (find ?f ?l)] =>
          destruct (find f l) eqn:?
      | |- context [match find ?f ?l with _ => _ end] =>
          destruct (find f l) eqn:?
      | |- context [if ?a >=? ?b then _ else _] =>
          destruct (a >=? b) eqn:?
      | |- context [match email ?r with _ => _ end] => destruct (email r)
      | |- context [if negb ?a then _ else _] => destruct a
      end ];
    intros [= <- <-]; try discriminate; intros _;
    repeat split; trivial; eexists; split; try reflexivity;
    now apply geb_false_lt.
Qed.

End SubmissionCases.

(** ** The submission workflow: properties *)

Section Submission.

Context `{Validator}.

(** C1: a valid, non-duplicate submission to an active section with a free
    slot inserts exactly one row, pending and unpaid, under a fresh rowid,
    adds one to the enrollment of that section and of no other, and is
    answered 201 with the identifier MBU + the rowid padded with zeros to
    six digits, the rowid, the section name and the payment plan. *)
Theorem submit_registers_once :
  forall (env : Env) (s : Store) (req : Body) (info : SectionRow),
    registrationValidation req = [] ->
    existing_student req s = None ->
    active_section (section req) s = Some info ->
    sec_current_enrollment info < sec_capacity info ->
    (forall n, (n < 4)%nat -> db_fails env n = false) ->
    let id := next_rowid (students_seq s) (map st_id (students s)) in
    let out := run (post_registration req) env s in
    fst out =
      Returned
        (mkResponse 201 true (Some "Registration successful")
           (Registration ("MBU" ++ Js.padStart 6 "0" (Js.toString id))%string
              id (section req) (paymentPlan req)))
    /\ students (store (snd out))
       = students s ++ [registration_row req id (clock env 2)]
    /\ st_status (registration_row req id (clock env 2)) = "pending"
    /\ st_payment_status (registration_row req id (clock env 2)) = "unpaid"
    /\ ~ In id (map st_id (students s))
    /\ sections (store (snd out))
       = map (bump_enrollment (section req)) (sections s)
    /\ active_section (section req) (store (snd out))
       = Some (enrolled_one_more info)
    /\ (forall r, In r (sections s) -> sec_name r <> section req ->
                  In r (sections (store (snd out))))
    /\ contact_messages (store (snd out)) = contact_messages s
    /\ log (snd out)
       = [mkEvent OpSelectStudentId true; mkEvent OpSelectActiveSection true;
          mkEvent OpInsertStudent true; mkEvent OpIncrementEnrollment true]
         ++ mail_events env req 4.
Proof.
  intros env s req info Hval Hdup Hsec Hcap Hdb id out.
  subst out. unfold run.
  rewrite (post_registration_created env (start s) req info)
    by (simpl; auto using Nat.lt_0_succ with arith).
  simpl. repeat split.
  - apply next_rowid_fresh.
  - unfold active_section. simpl. rewrite find_active_bump.
    unfold active_section in Hsec. now rewrite Hsec.
  - intros r Hin Hname. apply in_map_iff. exists r. split; [|exact Hin].
    unfold bump_enrollment.
    destruct (String.eqb_spec (sec_name r) (section req)); congruence.
Qed.

(** C2, as the code has it: the insert and the increment are two
    statements issued one after the other, outside any transaction.  When
    the insert is rejected the store is as it was; when both go through the
    row and the raised counter are both there; when the insert goes through
    and the increment is rejected, the request is answered 500 while the
    row stays and the counters are as they were. *)
Theorem insert_then_increment :
  forall (env : Env) (s : Store) (req : Body) (info : SectionRow),
    registrationValidation req = [] ->
    existing_student req s = None ->
    active_section (section req) s = Some info ->
    sec_current_enrollment info < sec_capacity info ->
    db_fails env 0 = false ->
    db_fails env 1 = false ->
    let out := run (post_registration req) env s in
    let row := registration_row req (new_student_id s) (clock env 2) in
    (db_fails env 2 = true ->
       fst out = Returned internal_error /\ store (snd out) = s)
    /\ (db_fails env 2 = false -> db_fails env 3 = false ->
          (exists r, fst out = Returned r /\ created r = true)
          /\ students (store (snd out)) = students s ++ [row]
          /\ sections (store (snd out))
             = map (bump_enrollment (section req)) (sections s))
    /\ (db_fails env 2 = false -> db_fails env 3 = true ->
          fst out = Returned internal_error
          /\ students (store (snd out)) = students s ++ [row]
          /\ sections (store (snd out)) = sections s).
Proof.
  intros env s req info Hval Hdup Hsec Hcap H0 H1 out row. subst out row.
  unfold run. split; [|split].
  - intros H2.
    rewrite (post_registration_insert_fails env (start s) req info); auto.
  - intros H2 H3.
    rewrite (post_registration_created env (start s) req info); auto.
    simpl. eauto.
  - intros H2 H3.
    rewrite (post_registration_increment_fails env (start s) req info); auto.
Qed.

(** C3: a submission that reaches the capacity check of a section without
    a free slot is answered with the full-capacity failure after the two
    lookups; the store is left as it was, and so the same call made again
    has the same answer and the same store. *)
Theorem full_section_rejects :
  forall (env env' : Env) (s : Store) (req : Body) (info : SectionRow),
    registrationValidation req = [] ->
    existing_student req s = None ->
    active_section (section req) s = Some info ->
    sec_current_enrollment info >= sec_capacity info ->
    db_fails env 0 = false -> db_fails env 1 = false ->
    db_fails env' 0 = false -> db_fails env' 1 = false ->
    let out := run (post_registration req) env s in
    let again := run (post_registration req) env' (store (snd out)) in
    fst out = Returned full_capacity
    /\ store (snd out) = s
    /\ log (snd out)
       = [mkEvent OpSelectStudentId true; mkEvent OpSelectActiveSection true]
    /\ fst again = Returned full_capacity
    /\ store (snd again) = s.
Proof.
  intros env env' s req info Hval Hdup Hsec Hcap H0 H1 H0' H1' out again.
  assert (Hout : forall e, db_fails e 0 = false -> db_fails e 1 = false ->
            run (post_registration req) e s =
              (Returned full_capacity,
               mkWorld s 2 [mkEvent OpSelectStudentId true;
                            mkEvent OpSelectActiveSection true])).
  { intros e He0 He1. unfold run.
    rewrite (post_registration_full e (start s) req info); auto. lia. }
  subst again out. rewrite (Hout env H0 H1). simpl.
  rewrite (Hout env' H0' H1'). simpl. auto.
Qed.

(** C4: once a submission has been registered, a second valid submission
    with the same student name, parent name and phone is answered 409
    right after the duplicate lookup, the only statement it issues: the
    store, and with it every row and every counter, is as the first
    submission left it. *)
Theorem duplicate_submission_conflicts :
  forall (env env' : Env) (s : Store) (first second : Body)
         (r : Response) (w1 : World),
    run (post_registration first) env s = (Returned r, w1) ->
    created r = true ->
    studentName second = studentName first ->
    parentName second = parentName first ->
    phone second = phone first ->
    registrationValidation second = [] ->
    db_fails env' 0 = false ->
    run (post_registration second) env' (store w1)
    = (Returned conflict,
       mkWorld (store w1) 1 [mkEvent OpSelectStudentId true]).
Proof.
  intros env env' s first second r w1 Hrun Hcreated Hsn Hpn Hph Hval H0.
  unfold run in Hrun.
  destruct (post_registration_created_inv env (start s) first r w1
              Hrun Hcreated)
    as (Hv & Hdup & (info & Hsec & Hcap) & D0 & D1 & D2 & D3).
  rewrite (post_registration_created env (start s) first info) in Hrun
    by assumption.
  injection Hrun as _ <-.
  assert (Hfound : exists row, existing_student second
                     (with_increment
                        (with_row (store (start s)) first
                           (new_student_id (store (start s)))
                           (clock env (2 + tick (start s))))
                        (section first)) = Some row).
  { unfold existing_student. rewrite Hsn, Hpn, Hph. simpl.
    rewrite find_app_none by exact Hdup. simpl.
    unfold same_student. simpl. rewrite !String.eqb_refl. simpl. eauto. }
  destruct Hfound as [row Hfound].
  unfold run.
  rewrite (post_registration_conflict env' _ second row); auto.
Qed.

(** C6: when a submission with an email address has been registered, the
    same submission handled where the mail transport rejects every message
    issues the mail, has it rejected, and still gives the same 201 answer
    and leaves the same store: the same row and the same counters. *)
Theorem mail_failure_is_swallowed :
  forall (env env' : Env) (s : Store) (req : Body) (to : string)
         (r : Response) (w1 : World),
    email req = Some to -> to <> "" ->
    run (post_registration req) env s = (Returned r, w1) ->
    created r = true ->
    (forall n, db_fails env' n = db_fails env n) ->
    (forall n, clock env' n = clock env n) ->
    (forall n, mail_fails env' n = true) ->
    let out := run (post_registration req) env' s in
    fst out = Returned r
    /\ store (snd out) = store w1
    /\ log (snd out)
       = [mkEvent OpSelectStudentId true; mkEvent OpSelectActiveSection true;
          mkEvent OpInsertStudent true; mkEvent OpIncrementEnrollment true;
          mkEvent OpSendEmail false].
Proof.
  intros env env' s req to r w1 Hto Hne Hrun Hcreated Hdb Hclock Hmail out.
  subst out. unfold run in *.
  destruct (post_registration_created_inv env (start s) req r w1
              Hrun Hcreated)
    as (Hv & Hdup & (info & Hsec & Hcap) & D0 & D1 & D2 & D3).
  rewrite (post_registration_created env (start s) req info) in Hrun
    by assumption.
  injection Hrun as <- <-.
  rewrite (post_registration_created env' (start s) req info)
    by (rewrite ?Hdb; assumption).
  rewrite Hclock. unfold mail_events. rewrite Hto, Hmail. simpl.
  destruct (String.eqb_spec to ""); [contradiction|]. simpl. auto.
Qed.

End Submission.

(** ** Fetching one contact message *)

Section ContactFetch.

Variables (env : Env) (s : Store) (id : Z) (m : ContactMessage).

Hypothesis Hfound :
  find (fun m => msg_id m =? id) (contact_messages s) = Some m.

Lemma found_has_id : msg_id m = id.
Proof. apply find_some in Hfound as [_ E]. now apply Z.eqb_eq. Qed.

Lemma get_contact_message_unread :
  msg_status m = "unread" ->
  db_fails env 0 = false -> db_fails env 1 = false ->
  run (get_contact_message id) env s =
    (Returned (mkResponse 200 true None (Message (with_status m "read"))),
     mkWorld
       (mkStore (students s) (students_seq s) (sections s) (sections_seq s)
          (map (mark_read id (clock env 1)) (contact_messages s)))
       2 [mkEvent OpSelectMessage true; mkEvent OpMarkMessageRead true]).
Proof.
  intros Hst H0 H1. unfold run, get_contact_message. simpl.
  unfold rejects. simpl. rewrite H0. simpl. rewrite Hfound. simpl.
  rewrite Hst. simpl. unfold rejects. simpl. rewrite H1. reflexivity.
Qed.

Lemma get_contact_message_seen :
  msg_status m <> "unread" ->
  db_fails env 0 = false ->
  run (get_contact_message id) env s =
    (Returned (mkResponse 200 true None (Message m)),
     mkWorld s 1 [mkEvent OpSelectMessage true]).
Proof.
  intros Hst H0. unfold run, get_contact_message. simpl.
  unfold rejects. simpl. rewrite H0. simpl. rewrite Hfound. simpl.
  destruct (String.eqb_spec (msg_status m) "unread"); [contradiction|].
  reflexivity.
Qed.

End ContactFetch.

(** C10: fetching a message by id writes to the store when the message is
    unread: its row gets status read and the current time as updated_at
    before the message is returned (with status read), every row with
    another id and every other table staying as it was; a message that is
    not unread (read, replied) is returned as stored and the store is left
    untouched. *)
Theorem fetch_marks_unread_message_read :
  forall (env : Env) (s : Store) (id : Z) (m : ContactMessage),
    find (fun m => msg_id m =? id) (contact_messages s) = Some m ->
    db_fails env 0 = false ->
    db_fails env 1 = false ->
    let out := run (get_contact_message id) env s in
    let s' := store (snd out) in
    (msg_status m = "unread" ->
       fst out
       = Returned (mkResponse 200 true None (Message (with_status m "read")))
       /\ contact_messages s'
          = map (mark_read id (clock env 1)) (contact_messages s)
       /\ In (mkMessage (msg_id m) (msg_name m) (msg_email m) (msg_phone m)
                (msg_subject m) (msg_message m) "read" (msg_created_at m)
                (clock env 1))
             (contact_messages s')
       /\ (forall m', In m' (contact_messages s) -> msg_id m' <> id ->
                      In m' (contact_messages s'))
       /\ students s' = students s
       /\ sections s' = sections s)
    /\ (msg_status m = "read" \/ msg_status m = "replied" ->
          fst out = Returned (mkResponse 200 true None (Message m))
          /\ s' = s).
Proof.
  intros env s id m Hfound H0 H1 out s'. subst s' out. split.
  - intros Hst.
    rewrite (get_contact_message_unread env s id m) by assumption.
    simpl. repeat split.
    + apply in_map_iff. exists m. split.
      * unfold mark_read.
        now rewrite (found_has_id s id m Hfound), Z.eqb_refl.
      * now apply find_some in Hfound.
    + intros m' Hin Hid. apply in_map_iff. exists m'. split; [|exact Hin].
      unfold mark_read. destruct (Z.eqb_spec (msg_id m') id); congruence.
  - intros Hst.
    rewrite (get_contact_message_seen env s id m); auto.
    destruct Hst as [-> | ->]; discriminate.
Qed.

(** ** The start-up seed *)

Section Seed.

Lemma existsb_name_iff (name : string) (l : list SectionRow) :
  existsb (fun r => (sec_name r =? name)%string) l = true
  <-> In name (map sec_name l).
Proof.
  rewrite existsb_exists, in_map_iff.
  split; intros (r & A & B); exists r.
  - apply String.eqb_eq in B. tauto.
  - split; [tauto|]. apply String.eqb_eq. tauto.
Qed.

(** One turn of the [for] loop. *)
Lemma seed_all_cons (d : SectionSeed) (ds : list SectionSeed)
    (env : Env) (w : World) :
  run_from (seed_all (d :: ds)) env w =
    if db_fails env (tick w) then
      (Uncaught StoreError,
       advance w (store w) (mkEvent OpInsertOrIgnoreSection false))
    else
      run_from (seed_all ds) env
        (advance w
           (snd (exec (InsertOrIgnoreSection d) (clock env (tick w)) (store w)))
           (mkEvent OpInsertOrIgnoreSection true)).
Proof.
  unfold seed_all. simpl. unfold rejects. simpl.
  now destruct (db_fails env (tick w)).
Qed.

(** The rows the seed finds stay where and what they are; a row it adds
    carries a name no row had before. *)
Lemma seed_all_extends (ds : list SectionSeed) (env : Env) :
  forall w,
    exists added,
      sections (store (snd (run_from (seed_all ds) env w)))
      = sections (store w) ++ added
      /\ (forall r, In r added -> ~ has_section (sec_name r) (store w))
      /\ students (store (snd (run_from (seed_all ds) env w)))
         = students (store w)
      /\ contact_messages (store (snd (run_from (seed_all ds) env w)))
         = contact_messages (store w).
Proof.
  induction ds as [|d ds IH]; intros w.
  - exists []. simpl. rewrite app_nil_r. intuition.
  - rewrite seed_all_cons. destruct (db_fails env (tick w)).
    + exists []. simpl. rewrite app_nil_r. intuition.
    + match goal with |- context [run_from _ _ ?w1] =>
        destruct (IH w1) as (added & E & Hnew & Hst & Hcm) end.
      rewrite E, Hst, Hcm. clear E Hst Hcm. simpl in *.
      destruct (existsb _ (sections (store w))) eqn:Hex; simpl in *.
      * exists added. auto.
      * match goal with |- context [(_ ++ [?row]) ++ _] =>
          exists (row :: added) end.
        rewrite <- app_assoc. simpl. repeat split; trivial.
        intros r [<-|Hin]; simpl.
        -- unfold has_section. rewrite <- existsb_name_iff. congruence.
        -- intros Hhas. apply (Hnew r Hin). unfold has_section. simpl.
           rewrite map_app, in_app_iff. now left.
Qed.

(** Where every name of the catalog has its row, the seed adds nothing. *)
Lemma seed_all_present (ds : list SectionSeed) (env : Env) :
  forall w,
    (forall d, In d ds -> has_section (seed_name d) (store w)) ->
    sections (store (snd (run_from (seed_all ds) env w)))
    = sections (store w).
Proof.
  induction ds as [|d ds IH]; intros w Hall; [reflexivity|].
  rewrite seed_all_cons. destruct (db_fails env (tick w)); [reflexivity|].
  assert (Hd : existsb (fun r => (sec_name r =? seed_name d)%string)
                 (sections (store w)) = true).
  { apply existsb_name_iff. apply Hall. now left. }
  rewrite IH; simpl; rewrite Hd; simpl; [reflexivity|].
  intros d' Hin. apply Hall. now right.
Qed.

(** Without a store fault, every name of the catalog has its row in the
    end. *)
Lemma seed_all_completes (ds : list SectionSeed) (env : Env) :
  (forall n, db_fails env n = false) ->
  forall w d,
    In d ds \/ has_section (seed_name d) (store w) ->
    has_section (seed_name d)
      (store (snd (run_from (seed_all ds) env w))).
Proof.
  intros Hdb. induction ds as [|d0 ds IH]; intros w d Hd.
  - simpl. destruct Hd as [[]|Hd]; exact Hd.
  - rewrite seed_all_cons, Hdb. apply IH.
    destruct Hd as [[->|Hin]|Hhas]; [right|now left|right].
    + unfold has_section. simpl.
      destruct (existsb _ (sections (store w))) eqn:Hex; simpl.
      * now apply existsb_name_iff.
      * rewrite map_app, in_app_iff. right. simpl. now left.
    + unfold has_section in *. simpl.
      destruct (existsb _ (sections (store w))); simpl; trivial.
      rewrite map_app, in_app_iff. now left.
Qed.

End Seed.

(** C9: the seed is keyed by section name.  A section row that is already
    there is kept as it is and where it is, and no second row of its name is
    added; and once the seed has run without a store fault, running it
    again leaves the sections table exactly as the first run made it. *)
Theorem seed_is_idempotent :
  forall (env env' : Env) (s : Store),
    (forall n, db_fails env n = false) ->
    let s1 := store (snd (run insertDefaultSections env s)) in
    let s2 := store (snd (run insertDefaultSections env' s1)) in
    (exists added,
        sections s1 = sections s ++ added
        /\ forall r, In r added -> ~ In (sec_name r) (map sec_name (sections s)))
    /\ sections s2 = sections s1.
Proof.
  intros env env' s Hdb s1 s2. split.
  - destruct (seed_all_extends default_sections env (start s))
      as (added & E & Hnew & _).
    exists added. split; [exact E|exact Hnew].
  - subst s2. unfold run.
    apply (seed_all_present default_sections env' (start s1)).
    intros d Hin. subst s1.
    apply (seed_all_completes default_sections env Hdb (start s) d).
    now left.
Qed.

(** ** The listing *)

Section Listing.














End Listing.


(** ** Submissions handled one after another *)

Section SerialSubmissions.

Context `{Validator}.

Variables (env : Env) (name : string).

Hypothesis Hdb : forall n, db_fails env n = false.

Lemma run_seq_cons {A} (p : Prog A) (ps : list (Prog A)) (w : World) :
  run_seq (p :: ps) env w
  = (fst (run_from p env w), store (snd (run_from p env w)))
    :: run_seq ps env (snd (run_from p env w)).
Proof. reflexivity. Qed.

(** A newly inserted row is a duplicate only of its own triple. *)
Lemma existing_after_insert (req other : Body) (s : Store) (id now : Z) :
  existing_student other s = None ->
  triple other <> triple req ->
  existing_student other
    (with_increment (with_row s req id now) (section req)) = None.
Proof.
  intros Hnone Hdiff. unfold existing_student in *. simpl.
  rewrite find_app_none by exact Hnone. simpl.
  unfold same_student. simpl.
  destruct (String.eqb_spec (Js.trim (studentName req))
              (Js.trim (studentName other))); simpl; trivial.
  destruct (String.eqb_spec (Js.trim (parentName req))
              (Js.trim (parentName other))); simpl; trivial.
  destruct (String.eqb_spec (phone req) (phone other)); simpl; trivial.
  exfalso. apply Hdiff. unfold triple. congruence.
Qed.

Lemma run_seq_fills_section :
  forall (reqs : list Body) (w : World) (info : SectionRow) (k : nat),
    Forall (valid_for name) reqs ->
    NoDup (map triple reqs) ->
    Forall (fun r => existing_student r (store w) = None) reqs ->
    active_section name (store w) = Some info ->
    sec_capacity info - sec_current_enrollment info = Z.of_nat k ->
    let results := run_seq (map post_registration reqs) env w in
    List.length results = List.length reqs
    /\ Forall is_created (firstn k results)
    /\ Forall is_full (skipn k results)
    /\ Forall (within_capacity name (sec_capacity info)) results.
Proof.
  induction reqs as [|req reqs IH]; intros w info k Hvalid Hnodup Hnew Hsec Hk.
  - simpl. rewrite firstn_nil, skipn_nil. auto.
  - inversion Hvalid as [|? ? [Hval Hname] Hvalid']; subst.
    inversion Hnodup as [|? ? Hnotin Hnodup']; subst.
    inversion Hnew as [|? ? Hdup Hnew']; subst.
    simpl map. cbv zeta. rewrite run_seq_cons.
    destruct k as [|k].
    + rewrite (post_registration_full env w req info); auto; [|lia].
      simpl fst. simpl snd. simpl store.
      destruct (IH (mkWorld (store w) (2 + tick w)
                      (log w ++ [mkEvent OpSelectStudentId true;
                                 mkEvent OpSelectActiveSection true]))
                  info 0%nat Hvalid' Hnodup' Hnew' Hsec Hk)
        as (Hlen & _ & Hfull & Hcap).
      cbn [skipn] in Hfull. cbn [List.length firstn skipn]. repeat split.
      * exact (f_equal S Hlen).
      * constructor.
      * constructor; [reflexivity|exact Hfull].
      * constructor; [|exact Hcap].
        exists info. simpl. repeat split; trivial. lia.
    + rewrite (post_registration_created env w req info); auto; [|lia].
      simpl fst. simpl snd. simpl store.
      match goal with |- context [run_seq _ _ ?w1] =>
        destruct (IH w1 (enrolled_one_more info) k Hvalid' Hnodup')
          as (Hlen & Hok & Hfull & Hcap) end.
      * simpl store. rewrite Forall_forall in *. intros r Hin.
        apply existing_after_insert; [now apply Hnew'|].
        intros E. apply Hnotin. rewrite <- E. now apply in_map.
      * simpl. unfold active_section in *. simpl.
        rewrite find_active_bump, Hsec. reflexivity.
      * simpl. lia.
      * simpl sec_capacity in Hcap. cbn [List.length firstn skipn].
        repeat split.
        -- exact (f_equal S Hlen).
        -- constructor; [|exact Hok]. eexists. split; reflexivity.
        -- exact Hfull.
        -- constructor; [|exact Hcap].
           exists (enrolled_one_more info). simpl. repeat split; [|lia].
           unfold active_section in *. simpl.
           rewrite find_active_bump, Hsec. reflexivity.
Qed.

End SerialSubmissions.

(** C7, as the code has it: the handler takes no lock and opens no
    transaction; what holds is the serial case.  When N valid submissions
    with pairwise different (student, parent, phone) triples, none of them
    registered yet, are handled one after another for a section with K < N
    free slots and no store fault, the first K are answered 201, the other
    N - K get the full-capacity failure, and after each of them the
    enrollment of the section is at most its capacity. *)
Theorem serial_submissions_fill_section `{Validator} :
  forall (env : Env) (s : Store) (reqs : list Body) (name : string)
         (info : SectionRow) (K : nat),
    (forall n, db_fails env n = false) ->
    Forall (valid_for name) reqs ->
    NoDup (map triple reqs) ->
    Forall (fun r => existing_student r s = None) reqs ->
    active_section name s = Some info ->
    sec_capacity info - sec_current_enrollment info = Z.of_nat K ->
    (K < List.length reqs)%nat ->
    let results := run_seq (map post_registration reqs) env (start s) in
    exists accepted rejected,
      results = accepted ++ rejected
      /\ List.length accepted = K
      /\ List.length rejected = (List.length reqs - K)%nat
      /\ Forall is_created accepted
      /\ Forall is_full rejected
      /\ Forall (within_capacity name (sec_capacity info)) results.
Proof.
  intros env s reqs name info K Hdb Hvalid Hnodup Hnew Hsec HK HKN results.
  destruct (run_seq_fills_section env name Hdb reqs (start s) info K
              Hvalid Hnodup Hnew Hsec HK)
    as (Hlen & Hok & Hfull & Hcap).
  fold results in Hlen, Hok, Hfull, Hcap.
  exists (firstn K results), (skipn K results).
  rewrite firstn_skipn, length_firstn, length_skipn, Hlen.
  repeat split; trivial. lia.
Qed.

(** ** Where the code departs from the description *)

(** C5: the names the validation accepts are not the names the seed
    inserts.  "Primary" passes validation and has no section row (the seed
    calls it "Primary School", a name the validation rejects), so on the
    freshly seeded store, all six sections active, a valid submission for
    "Primary" is answered "Selected section is not available". *)
Theorem primary_accepted_but_not_seeded :
  isIn valid_sections "Primary" = true
  /\ ~ In "Primary" (map seed_name default_sections)
  /\ In "Primary School" (map seed_name default_sections)
  /\ isIn valid_sections "Primary School" = false
  /\ map sec_name (sections Sample.seeded) = map seed_name default_sections
  /\ forallb sec_is_active (sections Sample.seeded) = true
  /\ @registrationValidation Sample.validator Sample.fatima_primary = []
  /\ fst (run (@post_registration Sample.validator Sample.fatima_primary)
            Sample.calm Sample.seeded)
     = Returned (failure 400 "Selected section is not available").
Proof.
  repeat split; try reflexivity.
  - simpl. intuition discriminate.
  - simpl. auto.
Qed.

(** C2 as stated fails: on the seeded store, when the increment (the
    fourth statement) is rejected, the row of the submission is in the
    table and the enrollment of its section is still 0. *)
Lemma insert_and_increment_not_atomic : ~ insert_and_increment_atomic.
Proof.
  intros C.
  specialize (C Sample.validator (Sample.failing_at 3) Sample.seeded
                Sample.fatima).
  unfold applied_as_unit in C. vm_compute in C.
  destruct C as [[E _]|[_ E]]; discriminate.
Qed.

(** C7 as stated fails: with one slot left in Tahfiz, two submissions whose
    awaits alternate both read 24 of 25, both insert, both increment: two
    201 answers and an enrollment of 26. *)
Lemma concurrent_submissions_oversell : ~ concurrent_submissions_serialized.
Proof.
  intros C.
  specialize (C Sample.validator Sample.calm Sample.tahfiz_one_left
                [Sample.applicant 25; Sample.applicant 26] "Tahfiz"
                (Sample.tahfiz_row 24) 1%nat Sample.round_robin
                (fun _ => eq_refl)).
  destruct C as [E _].
  - repeat constructor.
  - vm_compute. constructor; [intros [E|[]]; discriminate|].
    constructor; [intros []|constructor].
  - repeat constructor.
  - vm_compute. reflexivity.
  - reflexivity.
  - simpl. lia.
  - vm_compute. repeat constructor; discriminate.
  - vm_compute in E. discriminate.
Qed.


Example listing_of_page_zero :
  exists rows,
    fst (run (get_registrations Sample.pending_page_zero) Sample.calm
           Sample.twenty_five_pending)
    = Returned
        (mkResponse 200 true None
           (Listing rows (mkPagination (Some 0) (Some 10) 25 (Some 3))))
    /\ rows
       = firstn 10
           (order_by_created_at_desc
              (filter (passes_filters (Some "pending") None)
                 (students Sample.twenty_five_pending))).
Proof. vm_compute. eexists. split; reflexivity. Qed.

(** Other requests that are not answered with a page: a negative limit
    gives all the rows and a negative number of pages; a limit of 0 gives
    no number of pages; a limit of [1e1] is reported as 1 while the offset
    and the number of pages are those of 10; a limit that is no number is
    refused by the store. *)
Example listing_of_limit_minus_one :
  exists rows,
    fst (run (get_registrations Sample.pending_limit_minus_one) Sample.calm
           Sample.twenty_five_pending)
    = Returned
        (mkResponse 200 true None
           (Listing rows (mkPagination (Some 1) (Some (-1)) 25 (Some (-25)))))
    /\ List.length rows = 25%nat.
Proof. vm_compute. eexists. split; reflexivity. Qed.

Example listing_of_limit_zero :
  fst (run (get_registrations Sample.pending_limit_zero) Sample.calm
         Sample.twenty_five_pending)
  = Returned
      (mkResponse 200 true None
         (Listing [] (mkPagination (Some 1) (Some 0) 25 None))).
Proof. vm_compute. reflexivity. Qed.

Example listing_of_limit_1e1 :
  exists r,
    fst (run (get_registrations Sample.pending_page_two_by_1e1) Sample.calm
           Sample.twenty_five_pending)
    = Returned
        (mkResponse 200 true None
           (Listing [r] (mkPagination (Some 2) (Some 1) 25 (Some 3))))
    /\ nth_error
         (order_by_created_at_desc
            (filter (passes_filters (Some "pending") None)
               (students Sample.twenty_five_pending))) 10
       = Some r.
Proof. vm_compute. eexists. split; reflexivity. Qed.

Example listing_of_limit_abc :
  fst (run (get_registrations Sample.pending_limit_abc) Sample.calm
         Sample.twenty_five_pending)
  = Returned (failure 500 "Failed to fetch registrations").
Proof. reflexivity. Qed.

(** ** The properties at sample inputs *)

Lemma submit_registers_once_witness :
  fst (run (@post_registration Sample.validator Sample.fatima) Sample.calm
         Sample.seeded)
  = Returned
      (mkResponse 201 true (Some "Registration successful")
         (Registration "MBU000001" 1 "Tahfiz" "Annual Plan")).
Proof.
  refine (proj1 (@submit_registers_once Sample.validator Sample.calm
                   Sample.seeded Sample.fatima (Sample.tahfiz_row 0)
                   _ _ _ _ _)).
  - vm_compute. reflexivity.
  - vm_compute. reflexivity.
  - vm_compute. reflexivity.
  - vm_compute. reflexivity.
  - intros n _. reflexivity.
Defined.

Lemma insert_then_increment_witness :
  let out := run (@post_registration Sample.validator Sample.fatima)
               (Sample.failing_at 3) Sample.seeded in
  fst out = Returned internal_error
  /\ students (store (snd out))
     = students Sample.seeded
       ++ [registration_row Sample.fatima 1 1700000002]
  /\ sections (store (snd out)) = sections Sample.seeded.
Proof.
  refine (proj2 (proj2 (@insert_then_increment Sample.validator
                          (Sample.failing_at 3) Sample.seeded Sample.fatima
                          (Sample.tahfiz_row 0) _ _ _ _ _ _)) _ _).
  - vm_compute. reflexivity.
  - vm_compute. reflexivity.
  - vm_compute. reflexivity.
  - vm_compute. reflexivity.
  - reflexivity.
  - reflexivity.
  - reflexivity.
  - reflexivity.
Defined.

Lemma full_section_rejects_witness :
  let out := run (@post_registration Sample.validator (Sample.applicant 26))
               Sample.calm Sample.tahfiz_full in
  fst out = Returned full_capacity /\ store (snd out) = Sample.tahfiz_full.
Proof.
  pose proof (@full_section_rejects Sample.validator Sample.calm Sample.calm
                Sample.tahfiz_full (Sample.applicant 26)
                (Sample.tahfiz_row 25)) as W.
  destruct W as (A & B & _).
  - vm_compute. reflexivity.
  - vm_compute. reflexivity.
  - vm_compute. reflexivity.
  - vm_compute. discriminate.
  - reflexivity.
  - reflexivity.
  - reflexivity.
  - reflexivity.
  - split; [exact A|exact B].
Defined.

Lemma duplicate_submission_conflicts_witness :
  fst (run (@post_registration Sample.validator Sample.fatima) Sample.calm
         (store (snd (run (@post_registration Sample.validator Sample.fatima)
                        Sample.calm Sample.seeded))))
  = Returned conflict.
Proof.
  rewrite (@duplicate_submission_conflicts Sample.validator Sample.calm
             Sample.calm Sample.seeded Sample.fatima Sample.fatima
             (mkResponse 201 true (Some "Registration successful")
                (Registration "MBU000001" 1 "Tahfiz" "Annual Plan"))
             (snd (run (@post_registration Sample.validator Sample.fatima)
                     Sample.calm Sample.seeded))).
  - reflexivity.
  - vm_compute. reflexivity.
  - reflexivity.
  - reflexivity.
  - reflexivity.
  - reflexivity.
  - vm_compute. reflexivity.
  - reflexivity.
Defined.

Lemma mail_failure_is_swallowed_witness :
  fst (run (@post_registration Sample.validator Sample.fatima_with_mail)
         Sample.no_mail Sample.seeded)
  = Returned
      (mkResponse 201 true (Some "Registration successful")
         (Registration "MBU000001" 1 "Tahfiz" "Annual Plan")).
Proof.
  refine (proj1 (@mail_failure_is_swallowed Sample.validator Sample.calm
                   Sample.no_mail Sample.seeded Sample.fatima_with_mail
                   "amina@example.org" _
                   (snd (run (@post_registration Sample.validator
                                Sample.fatima_with_mail)
                           Sample.calm Sample.seeded))
                   _ _ _ _ _ _ _)).
  - reflexivity.
  - discriminate.
  - vm_compute. reflexivity.
  - reflexivity.
  - intros n. reflexivity.
  - intros n. reflexivity.
  - intros n. reflexivity.
Defined.

Lemma serial_submissions_fill_section_witness :
  exists accepted rejected,
    run_seq
      (map (@post_registration Sample.validator)
         [Sample.applicant 25; Sample.applicant 26])
      Sample.calm (start Sample.tahfiz_one_left)
    = accepted ++ rejected
    /\ List.length accepted = 1%nat
    /\ List.length rejected = 1%nat
    /\ Forall is_created accepted
    /\ Forall is_full rejected.
Proof.
  destruct (@serial_submissions_fill_section Sample.validator Sample.calm
              Sample.tahfiz_one_left
              [Sample.applicant 25; Sample.applicant 26] "Tahfiz"
              (Sample.tahfiz_row 24) 1%nat)
    as (accepted & rejected & E & La & Lr & Ha & Hr & _).
  - intros n. reflexivity.
  - repeat constructor.
  - vm_compute. constructor; [intros [E|[]]; discriminate|].
    constructor; [intros []|constructor].
  - repeat constructor.
  - vm_compute. reflexivity.
  - reflexivity.
  - simpl. lia.
  - exists accepted, rejected. auto.
Defined.


Lemma seed_is_idempotent_witness :
  sections
    (store (snd (run insertDefaultSections Sample.calm Sample.seeded)))
  = sections Sample.seeded.
Proof.
  refine (proj2 (seed_is_idempotent Sample.calm Sample.calm empty_store _)).
  intros n. reflexivity.
Defined.

Lemma fetch_marks_unread_message_read_witness :
  let out := run (get_contact_message 1) Sample.calm Sample.one_unread in
  fst out
  = Returned
      (mkResponse 200 true None
         (Message (with_status Sample.unread_message "read")))
  /\ contact_messages (store (snd out))
     = [mkMessage 1 "Bello" "bello@example.org" None "Admission dates"
          "When does the next term start?" "read" 1700000000 1700000001].
Proof.
  destruct (fetch_marks_unread_message_read Sample.calm Sample.one_unread 1
              Sample.unread_message) as [W _].
  - reflexivity.
  - reflexivity.
  - reflexivity.
  - destruct (W eq_refl) as (A & B & _). split; [exact A|exact B].
Defined.

(** ** Further properties of the submission handler *)

Section SubmissionEffect.

Context `{Validator}.

(** Every run answers, and its effect on the store is one of three: none,
    the new row alone (the increment was rejected), the new row and the
    increment. *)
Lemma post_registration_effect (env : Env) (w : World) (req : Body) :
  exists r,
    fst (run_from (post_registration req) env w) = Returned r
    /\ ((store (snd (run_from (post_registration req) env w)) = store w
         /\ (http_status r = 400 \/ http_status r = 409
             \/ http_status r = 500))
        \/ exists info now,
             registrationValidation req = []
             /\ existing_student req (store w) = None
             /\ active_section (section req) (store w) = Some info
             /\ sec_current_enrollment info < sec_capacity info
             /\ ((store (snd (run_from (post_registration req) env w))
                  = with_row (store w) req (new_student_id (store w)) now
                  /\ r = internal_error
                  /\ db_fails env (3 + tick w) = true)
                 \/ (store (snd (run_from (post_registration req) env w))
                     = with_increment
                         (with_row (store w) req (new_student_id (store w))
                            now)
                         (section req)
                     /\ http_status r = 201))).
Proof.
  unfold post_registration, existing_student, active_section,
    send_confirmation, with_increment, with_row, registration_row,
    new_student_id.
  destruct (registrationValidation req);
    [|simpl; eexists; split; [reflexivity|]; left; simpl; auto].
  repeat first
    [ progress (unfold rejects; simpl)
    | match goal with
      | |- context [if db_fails ?e ?n then _ else _] =>
          destruct (db_fails e n) eqn:?
      | |- context [if mail_fails ?e ?n then _ else _] =>
          destruct (mail_fails e n)
      | |- context [option_map st_id (find ?f ?l)] =>
          destruct (find f l) eqn:?
      | |- context [match find ?f ?l with _ => _ end] =>
          destruct (find f l) eqn:?
      | |- context [if ?a >=? ?b then _ else _] =>
          destruct (a >=? b) eqn:?
      | |- context [match email ?r with _ => _ end] => destruct (email r)
      | |- context [if negb ?a then _ else _] => destruct a
      end ];
    (eexists; split; [reflexivity|]);
    repeat match goal with
           | E : (_ >=? _) = false |- _ => apply geb_false_lt in E
           end;
    first
      [ solve [left; simpl; auto]
      | right; eexists; eexists;
        repeat (split; [solve [eauto]|]);
        solve [ left; split; [reflexivity|split; [reflexivity|simpl; auto]]
              | right; split; reflexivity ] ].
Qed.

Lemma run_seq_preserves {A} (I : Store -> Prop) (ps : list (Prog A))
    (env : Env) :
  (forall p, In p ps -> forall w,
      I (store w) -> I (store (snd (run_from p env w)))) ->
  forall w, I (store w) -> Forall (fun x => I (snd x)) (run_seq ps env w).
Proof.
  induction ps as [|p ps IH]; intros Hstep w Hw; simpl; constructor.
  - simpl. apply Hstep; [now left|exact Hw].
  - apply IH.
    + intros q Hq. apply Hstep. now right.
    + apply Hstep; [now left|exact Hw].
Qed.

Lemma in_map_post_registration (p : Prog Response) (reqs : list Body) :
  In p (map post_registration reqs) ->
  exists req, p = post_registration req.
Proof. intros Hin. apply in_map_iff in Hin as (req & <- & _). eauto. Qed.

Lemma names_after_bump (name : string) (l : list SectionRow) :
  map sec_name (map (bump_enrollment name) l) = map sec_name l.
Proof.
  rewrite map_map. apply map_ext. intros r. unfold bump_enrollment.
  now destruct (sec_name r =? name)%string.
Qed.

Lemma NoDup_map_same {A B} (f : A -> B) (l : list A) (a b : A) :
  NoDup (map f l) -> In a l -> In b l -> f a = f b -> a = b.
Proof.
  induction l as [|x l IH]; simpl; intros Hnd Ha Hb E; [contradiction|].
  inversion Hnd as [|? ? Hnotin Hnd']; subst.
  destruct Ha as [->|Ha], Hb as [->|Hb]; trivial.
  - exfalso. apply Hnotin. rewrite E. now apply in_map.
  - exfalso. apply Hnotin. rewrite <- E. now apply in_map.
  - now apply IH.
Qed.

Lemma capacity_step (env : Env) (w : World) (req : Body) :
  capacity_respected (store w) /\ unique_names (store w) ->
  capacity_respected (store (snd (run_from (post_registration req) env w)))
  /\ unique_names (store (snd (run_from (post_registration req) env w))).
Proof.
  intros [Hcap Huniq].
  destruct (post_registration_effect env w req)
    as (r & _ & [[-> _]|(info & now & _ & _ & Hsec & Hlt & [[-> _]|[-> _]])]);
    [now split|now split|].
  unfold capacity_respected, unique_names, with_increment. simpl.
  rewrite names_after_bump. split; [|exact Huniq].
  apply Forall_map. unfold capacity_respected in Hcap.
  rewrite Forall_forall in *. intros x Hx. specialize (Hcap x Hx).
  unfold bump_enrollment.
  destruct (String.eqb_spec (sec_name x) (section req)) as [E|]; trivial.
  unfold active_section in Hsec. apply find_some in Hsec as [Hin Hact].
  unfold active_named in Hact. apply andb_prop in Hact as [Hn _].
  apply String.eqb_eq in Hn.
  assert (x = info) as ->
    by (apply (NoDup_map_same sec_name (sections (store w)));
        trivial; congruence).
  simpl. lia.
Qed.

Lemma find_name_bump (n name : string) (l : list SectionRow) :
  find (fun r => (sec_name r =? n)%string) (map (bump_enrollment name) l)
  = option_map (bump_enrollment name)
      (find (fun r => (sec_name r =? n)%string) l).
Proof.
  induction l as [|r l IH]; simpl; [reflexivity|].
  replace (sec_name (bump_enrollment name r)) with (sec_name r)
    by (unfold bump_enrollment; now destruct (sec_name r =? name)%string).
  destruct (sec_name r =? n)%string; [reflexivity|exact IH].
Qed.

Lemma enrollment_other (n name : string) (s : Store) :
  n <> name -> enrollment n (with_increment s name) = enrollment n s.
Proof.
  intros Hne. unfold enrollment, with_increment. simpl.
  rewrite find_name_bump.
  destruct (find _ (sections s)) as [r|] eqn:E; simpl; trivial.
  apply find_some in E as [_ E]. apply String.eqb_eq in E.
  unfold bump_enrollment.
  destruct (String.eqb_spec (sec_name r) name); [congruence|reflexivity].
Qed.

Lemma enrollment_raised (name : string) (s : Store) (info : SectionRow) :
  active_section name s = Some info ->
  enrollment name (with_increment s name) = enrollment name s + 1.
Proof.
  intros Hsec. unfold enrollment, with_increment. simpl.
  rewrite find_name_bump.
  destruct (find _ (sections s)) as [r|] eqn:E; simpl.
  - apply find_some in E as [_ E]. unfold bump_enrollment. now rewrite E.
  - exfalso. unfold active_section in Hsec.
    apply find_some in Hsec as [Hin Hact].
    apply (find_none _ _ E) in Hin.
    unfold active_named in Hact. apply andb_prop in Hact as [Hn _]. congruence.
Qed.

Lemma rows_in_with_row (n : string) (s : Store) (req : Body) (id now : Z) :
  rows_in n (with_row s req id now)
  = rows_in n s + (if (section req =? n)%string then 1 else 0).
Proof.
  unfold rows_in, count_if, with_row. simpl.
  rewrite filter_app, length_app. simpl.
  destruct (section req =? n)%string; simpl; lia.
Qed.

Lemma counter_step_le (env : Env) (w : World) (req : Body) :
  (forall n, enrollment n (store w) <= rows_in n (store w)) ->
  forall n,
    enrollment n (store (snd (run_from (post_registration req) env w)))
    <= rows_in n (store (snd (run_from (post_registration req) env w))).
Proof.
  intros Hle n.
  destruct (post_registration_effect env w req)
    as (r & _ & [[-> _]|(info & now & _ & _ & Hsec & _ & [[-> _]|[-> _]])]);
    [apply Hle| |].
  - rewrite rows_in_with_row.
    change (enrollment n (with_row (store w) req
                            (new_student_id (store w)) now))
      with (enrollment n (store w)).
    specialize (Hle n). destruct (section req =? n)%string; lia.
  - change (rows_in n (with_increment
                         (with_row (store w) req (new_student_id (store w))
                            now) (section req)))
      with (rows_in n (with_row (store w) req (new_student_id (store w))
                         now)).
    rewrite rows_in_with_row. specialize (Hle n).
    destruct (String.eqb_spec (section req) n) as [<-|Hne].
    + rewrite (enrollment_raised _ _ info) by exact Hsec.
      change (enrollment (section req)
                (with_row (store w) req (new_student_id (store w)) now))
        with (enrollment (section req) (store w)).
      lia.
    + rewrite enrollment_other by congruence.
      change (enrollment n (with_row (store w) req
                              (new_student_id (store w)) now))
        with (enrollment n (store w)).
      lia.
Qed.

Lemma counter_step_eq (env : Env) (w : World) (req : Body) :
  (forall k, db_fails env k = false) ->
  (forall n, enrollment n (store w) = rows_in n (store w)) ->
  forall n,
    enrollment n (store (snd (run_from (post_registration req) env w)))
    = rows_in n (store (snd (run_from (post_registration req) env w))).
Proof.
  intros Hdb Heq n.
  destruct (post_registration_effect env w req)
    as (r & _ & [[-> _]|(info & now & _ & _ & Hsec & _
                        & [(_ & _ & Hf)|[-> _]])]);
    [apply Heq|rewrite Hdb in Hf; discriminate|].
  change (rows_in n (with_increment
                       (with_row (store w) req (new_student_id (store w))
                          now) (section req)))
    with (rows_in n (with_row (store w) req (new_student_id (store w))
                       now)).
  rewrite rows_in_with_row. specialize (Heq n).
  destruct (String.eqb_spec (section req) n) as [<-|Hne].
  - rewrite (enrollment_raised _ _ info) by exact Hsec.
    change (enrollment (section req)
              (with_row (store w) req (new_student_id (store w)) now))
      with (enrollment (section req) (store w)).
    lia.
  - rewrite enrollment_other by congruence.
    change (enrollment n (with_row (store w) req
                            (new_student_id (store w)) now))
      with (enrollment n (store w)).
    lia.
Qed.

End SubmissionEffect.
Section SubmissionInvariants.

Context `{Validator}.

Lemma sorted_snoc (l : list Z) (y : Z) :
  StronglySorted Z.lt l -> (forall x, In x l -> x < y) ->
  StronglySorted Z.lt (l ++ [y]).
Proof.
  induction l as [|a l IH]; intros Hs Hlt; simpl.
  - repeat constructor.
  - inversion Hs as [|? ? Hs' Hall]; subst. constructor.
    + apply IH; [exact Hs'|]. intros x Hx. apply Hlt. now right.
    + apply Forall_app. split; [exact Hall|].
      constructor; [|constructor]. apply Hlt. now left.
Qed.

Lemma ids_below_next (s : Store) (x : Z) :
  In x (map st_id (students s)) -> x < new_student_id s.
Proof.
  intros Hin. apply fold_max_ge in Hin.
  unfold new_student_id, next_rowid. lia.
Qed.

Lemma no_such_triple (req : Body) (s : Store) :
  existing_student req s = None ->
  ~ In (triple req) (map row_triple (students s)).
Proof.
  intros Hnone Hin. apply in_map_iff in Hin as (r & E & Hin).
  apply (find_none _ _ Hnone) in Hin.
  unfold row_triple, triple in E. injection E as E1 E2 E3.
  unfold same_student in Hin. now rewrite E1, E2, E3, !String.eqb_refl in Hin.
Qed.

Lemma wellformed_with_row (s : Store) (req : Body) (now : Z) :
  students_wellformed s ->
  existing_student req s = None ->
  students_wellformed (with_row s req (new_student_id s) now).
Proof.
  intros [Hids Htr] Hnone. unfold students_wellformed, with_row. simpl.
  rewrite !map_app. simpl. split.
  - apply sorted_snoc; [exact Hids|]. apply ids_below_next.
  - apply (Permutation_NoDup (Permutation_cons_append _ _)).
    constructor; [|exact Htr]. now apply no_such_triple.
Qed.

Lemma wellformed_step (env : Env) (w : World) (req : Body) :
  students_wellformed (store w) ->
  students_wellformed (store (snd (run_from (post_registration req) env w))).
Proof.
  intros Hwf.
  destruct (post_registration_effect env w req)
    as (r & _ & [[-> _]|(info & now & _ & Hnone & _ & _ & [[-> _]|[-> _]])]);
    trivial; now apply wellformed_with_row.
Qed.

End SubmissionInvariants.

(** X1: the submission handler always answers, with 201, 400, 409 or 500,
    whatever fails underneath: no error escapes its outer catch.  It never
    touches the contact messages; an answer other than 201 leaves every
    section row as it was, and a 400 or 409 leaves the whole store as it
    was. *)
Theorem post_registration_always_answers `{Validator} :
  forall (env : Env) (s : Store) (req : Body),
    exists r,
      fst (run (post_registration req) env s) = Returned r
      /\ In (http_status r) [201; 400; 409; 500]
      /\ (http_status r <> 201 ->
            sections (store (snd (run (post_registration req) env s)))
            = sections s)
      /\ (http_status r = 400 \/ http_status r = 409 ->
            store (snd (run (post_registration req) env s)) = s)
      /\ contact_messages (store (snd (run (post_registration req) env s)))
         = contact_messages s.
Proof.
  intros env s req. unfold run.
  destruct (post_registration_effect env (start s) req)
    as (r & Hr & [[-> Hcode]|(info & now & _ & _ & _ & _
                             & [(-> & Er & _)|[-> Hcode]])]);
    exists r; (split; [exact Hr|]); simpl.
  - repeat split; trivial. intuition.
  - rewrite Er. simpl. repeat split; trivial; [intuition|].
    intros [E|E]; discriminate.
  - rewrite Hcode. repeat split; trivial; [intuition|congruence|].
    intros [E|E]; discriminate.
Qed.

(** X2: submissions handled one after another, whatever fails in between,
    keep every section within its capacity and keep the section names
    unique, provided they were so at the start. *)
Theorem capacity_kept_by_submissions `{Validator} :
  forall (env : Env) (s : Store) (reqs : list Body),
    unique_names s ->
    capacity_respected s ->
    Forall (fun x => capacity_respected (snd x) /\ unique_names (snd x))
      (run_seq (map post_registration reqs) env (start s)).
Proof.
  intros env s reqs Huniq Hcap.
  apply (run_seq_preserves
           (fun s => capacity_respected s /\ unique_names s)).
  - intros p Hp w Hw. apply in_map_post_registration in Hp as [req ->].
    now apply capacity_step.
  - now split.
Qed.

(** X3: along submissions handled one after another the enrollment counter
    of a section never runs ahead of the number of its rows, whatever fails;
    and when no store statement fails, a counter that equals the number of
    rows keeps equalling it. *)
Theorem counter_follows_rows `{Validator} :
  forall (env : Env) (s : Store) (reqs : list Body),
    ((forall n, enrollment n s <= rows_in n s) ->
       Forall (fun x => forall n, enrollment n (snd x) <= rows_in n (snd x))
         (run_seq (map post_registration reqs) env (start s)))
    /\ ((forall k, db_fails env k = false) ->
        (forall n, enrollment n s = rows_in n s) ->
          Forall (fun x => forall n, enrollment n (snd x) = rows_in n (snd x))
            (run_seq (map post_registration reqs) env (start s))).
Proof.
  intros env s reqs. split.
  - intros Hle.
    apply (run_seq_preserves
             (fun s => forall n, enrollment n s <= rows_in n s));
      [|exact Hle].
    intros p Hp w Hw. apply in_map_post_registration in Hp as [req ->].
    now apply counter_step_le.
  - intros Hdb Heq.
    apply (run_seq_preserves
             (fun s => forall n, enrollment n s = rows_in n s));
      [|exact Heq].
    intros p Hp w Hw. apply in_map_post_registration in Hp as [req ->].
    now apply counter_step_eq.
Qed.

(** X4: along submissions handled one after another, whatever fails, rowids
    keep growing along the students table (so no rowid is handed out twice)
    and no two rows share student name, parent name and phone. *)
Theorem students_stay_wellformed `{Validator} :
  forall (env : Env) (s : Store) (reqs : list Body),
    students_wellformed s ->
    Forall (fun x => students_wellformed (snd x))
      (run_seq (map post_registration reqs) env (start s)).
Proof.
  intros env s reqs Hwf.
  apply (run_seq_preserves students_wellformed); [|exact Hwf].
  intros p Hp w Hw. apply in_map_post_registration in Hp as [req ->].
  now apply wellformed_step.
Qed.

Lemma enrollment_zero (n : string) (s : Store) :
  Forall (fun r => sec_current_enrollment r = 0) (sections s) ->
  enrollment n s = 0.
Proof.
  intros Hall. unfold enrollment.
  destruct (find _ (sections s)) as [r|] eqn:E; trivial.
  apply find_some in E as [Hin _]. rewrite Forall_forall in Hall. auto.
Qed.

Lemma seeded_names_unique : unique_names Sample.seeded.
Proof.
  vm_compute.
  repeat (constructor; [simpl; intuition discriminate|]). constructor.
Defined.

Lemma seeded_within_capacity : capacity_respected Sample.seeded.
Proof. vm_compute. repeat constructor; discriminate. Defined.

Lemma capacity_kept_by_submissions_witness :
  Forall (fun x => capacity_respected (snd x) /\ unique_names (snd x))
    (run_seq
       (map (@post_registration Sample.validator)
          [Sample.fatima; Sample.applicant 1])
       (Sample.failing_at 3) (start Sample.seeded)).
Proof.
  apply (@capacity_kept_by_submissions Sample.validator).
  - exact seeded_names_unique.
  - exact seeded_within_capacity.
Defined.

Lemma counter_follows_rows_witness :
  Forall (fun x => forall n, enrollment n (snd x) = rows_in n (snd x))
    (run_seq
       (map (@post_registration Sample.validator)
          [Sample.fatima; Sample.applicant 1])
       Sample.calm (start Sample.seeded)).
Proof.
  apply (proj2 (@counter_follows_rows Sample.validator Sample.calm
                  Sample.seeded [Sample.fatima; Sample.applicant 1])).
  - intros k. reflexivity.
  - intros n. rewrite enrollment_zero; [reflexivity|].
    vm_compute. repeat constructor.
Defined.

Lemma students_stay_wellformed_witness :
  Forall (fun x => students_wellformed (snd x))
    (run_seq
       (map (@post_registration Sample.validator)
          [Sample.fatima; Sample.fatima; Sample.applicant 1])
       (Sample.failing_at 3) (start Sample.seeded)).
Proof.
  apply (@students_stay_wellformed Sample.validator).
  split; vm_compute; constructor.
Defined.

(** ** Membership in a list of allowed values *)

Section ValidationFields.

Lemma isIn_false (l : list string) (s : string) :
  isIn l s = false <-> ~ In s l.
Proof.
  unfold isIn. rewrite <- Bool.not_true_iff_false, existsb_exists.
  split; intros Hn Hin; apply Hn.
  - exists s. split; [exact Hin|apply String.eqb_refl].
  - destruct Hin as (x & Hx & E). apply String.eqb_eq in E. now subst.
Qed.

End ValidationFields.

(** ** Further properties of the listing *)

Section ListingPages.




End ListingPages.




(** ** Further properties of the contact fetch *)

Section ContactFetchMore.

Lemma find_id_mark_read (id id' now : Z) (l : list ContactMessage) :
  find (fun m => msg_id m =? id') (map (mark_read id now) l)
  = option_map (mark_read id now) (find (fun m => msg_id m =? id') l).
Proof.
  induction l as [|m l IH]; simpl; [reflexivity|].
  replace (msg_id (mark_read id now m)) with (msg_id m)
    by (unfold mark_read; now destruct (msg_id m =? id)).
  destruct (msg_id m =? id'); [reflexivity|exact IH].
Qed.

End ContactFetchMore.

(** X8: fetching an id that no message has answers 404 after the lookup and
    writes nothing; and whatever the id and whatever fails, a fetch never
    touches students or sections, keeps the number of messages, and leaves
    every message with another id as it was. *)
Theorem fetch_touches_one_message_at_most :
  forall (env : Env) (s : Store) (id : Z),
    let out := run (get_contact_message id) env s in
    students (store (snd out)) = students s
    /\ sections (store (snd out)) = sections s
    /\ List.length (contact_messages (store (snd out)))
       = List.length (contact_messages s)
    /\ (forall m, In m (contact_messages s) -> msg_id m <> id ->
                  In m (contact_messages (store (snd out))))
    /\ (find (fun m => msg_id m =? id) (contact_messages s) = None ->
        db_fails env 0 = false ->
        fst out = Returned (failure 404 "Contact message not found")
        /\ store (snd out) = s).
Proof.
  intros env s id out. subst out. unfold run, get_contact_message. simpl.
  unfold rejects. simpl.
  destruct (db_fails env 0) eqn:H0; simpl;
    [|destruct (find _ (contact_messages s)) as [m|] eqn:Hfind; simpl;
      [destruct (msg_status m =? "unread")%string; simpl;
       [unfold rejects; simpl; destruct (db_fails env 1); simpl|]|]];
    repeat split; trivial; try discriminate; try apply length_map.
  all: intros m' Hin Hid; apply in_map_iff; exists m'.
  all: split; [|exact Hin]; unfold mark_read.
  all: destruct (Z.eqb_spec (msg_id m') id); congruence.
Qed.

(** X9: fetching an unread message twice: the first answer shows it as
    read but with the updated_at it had before; the second fetch returns
    the stored row, read and stamped with the time of the first fetch, and
    writes nothing more. *)
Theorem second_fetch_is_a_plain_read :
  forall (env env' : Env) (s : Store) (id : Z) (m : ContactMessage),
    find (fun m => msg_id m =? id) (contact_messages s) = Some m ->
    msg_status m = "unread" ->
    db_fails env 0 = false -> db_fails env 1 = false ->
    db_fails env' 0 = false ->
    let first := run (get_contact_message id) env s in
    let second := run (get_contact_message id) env' (store (snd first)) in
    fst first
    = Returned
        (mkResponse 200 true None
           (Message
              (mkMessage (msg_id m) (msg_name m) (msg_email m)
                 (msg_phone m) (msg_subject m) (msg_message m) "read"
                 (msg_created_at m) (msg_updated_at m))))
    /\ fst second
       = Returned
           (mkResponse 200 true None
              (Message
                 (mkMessage (msg_id m) (msg_name m) (msg_email m)
                    (msg_phone m) (msg_subject m) (msg_message m) "read"
                    (msg_created_at m) (clock env 1))))
    /\ store (snd second) = store (snd first)
    /\ log (snd second) = [mkEvent OpSelectMessage true].
Proof.
  intros env env' s id m Hfound Hst H0 H1 H0' first second.
  subst second first.
  rewrite (get_contact_message_unread env s id m) by assumption.
  simpl fst. simpl snd. simpl store.
  split; [reflexivity|].
  assert (E : mark_read id (clock env 1) m
              = mkMessage (msg_id m) (msg_name m) (msg_email m)
                  (msg_phone m) (msg_subject m) (msg_message m) "read"
                  (msg_created_at m) (clock env 1)).
  { unfold mark_read. pose proof (found_has_id s id m Hfound) as Hid.
    destruct (Z.eqb_spec (msg_id m) id); [reflexivity|contradiction]. }
  rewrite (get_contact_message_seen env' _ id (mark_read id (clock env 1) m)).
  - rewrite E. simpl. auto.
  - simpl. rewrite find_id_mark_read, Hfound. reflexivity.
  - rewrite E. simpl. discriminate.
  - exact H0'.
Qed.

Lemma second_fetch_is_a_plain_read_witness :
  let first := run (get_contact_message 1) Sample.calm Sample.one_unread in
  let second := run (get_contact_message 1) Sample.calm (store (snd first)) in
  fst first
  = Returned
      (mkResponse 200 true None
         (Message
            (mkMessage 1 "Bello" "bello@example.org" None "Admission dates"
               "When does the next term start?" "read" 1700000000
               1700000000)))
  /\ fst second
     = Returned
         (mkResponse 200 true None
            (Message
               (mkMessage 1 "Bello" "bello@example.org" None "Admission dates"
                  "When does the next term start?" "read" 1700000000
                  1700000001)))
  /\ store (snd second) = store (snd first)
  /\ log (snd second) = [mkEvent OpSelectMessage true].
Proof.
  apply (second_fetch_is_a_plain_read Sample.calm Sample.calm
           Sample.one_unread 1 Sample.unread_message); reflexivity.
Defined.

(** ** Further properties of the seed *)

Section SeedMore.

Variable env : Env.

Lemma seed_all_unique (ds : list SectionSeed) :
  forall w,
    unique_names (store w) ->
    unique_names (store (snd (run_from (seed_all ds) env w))).
Proof.
  induction ds as [|d ds IH]; intros w Hu; [exact Hu|].
  rewrite seed_all_cons. destruct (db_fails env (tick w)); [exact Hu|].
  apply IH. unfold unique_names in *. simpl.
  destruct (existsb _ (sections (store w))) eqn:Hex; simpl; [exact Hu|].
  rewrite map_app. simpl.
  apply (Permutation_NoDup (Permutation_cons_append _ _)).
  constructor; [|exact Hu].
  rewrite <- existsb_name_iff. congruence.
Qed.

Lemma seed_all_forall (P : SectionRow -> Prop) (ds : list SectionSeed) :
  (forall d id now, In d ds ->
     P (mkSection id (seed_name d) (seed_description d) (seed_capacity d) 0
          (seed_fee_termly d) (seed_fee_annual d) (seed_age_min d)
          (seed_age_max d) true now now)) ->
  forall w,
    Forall P (sections (store w)) ->
    Forall P (sections (store (snd (run_from (seed_all ds) env w)))).
Proof.
  induction ds as [|d ds IH]; intros Hnew w Hall; [exact Hall|].
  rewrite seed_all_cons. destruct (db_fails env (tick w)); [exact Hall|].
  apply IH.
  - intros d' id now Hin. apply Hnew. now right.
  - simpl. destruct (existsb _ (sections (store w))); simpl; [exact Hall|].
    apply Forall_app. split; [exact Hall|].
    constructor; [|constructor]. apply Hnew. now left.
Qed.

(** A rejected statement ends the loop: what follows is what seeding the
    entries before it gives. *)
Lemma seed_all_stops (ds : list SectionSeed) :
  forall (k : nat) (w : World),
    (k < List.length ds)%nat ->
    (forall n, (n < k)%nat -> db_fails env (n + tick w) = false) ->
    db_fails env (k + tick w) = true ->
    fst (run_from (seed_all ds) env w) = Uncaught StoreError
    /\ store (snd (run_from (seed_all ds) env w))
       = store (snd (run_from (seed_all (firstn k ds)) env w))
    /\ List.length (log (snd (run_from (seed_all ds) env w)))
       = (S k + List.length (log w))%nat.
Proof.
  induction ds as [|d ds IH]; intros k w Hk Hok Hfail;
    [simpl in Hk; lia|].
  rewrite seed_all_cons. destruct k as [|k].
  - simpl in Hfail. rewrite Hfail. simpl. rewrite length_app. simpl.
    repeat split. lia.
  - pose proof (Hok 0%nat ltac:(lia)) as H0. simpl in H0.
    rewrite H0. simpl firstn. rewrite seed_all_cons, H0.
    match goal with |- context [run_from (seed_all ds) env ?w1] =>
      destruct (IH k w1) as (A & B & C) end.
    + simpl in Hk. lia.
    + intros n Hn. simpl tick.
      replace (n + S (tick w))%nat with (S n + tick w)%nat by lia.
      apply Hok. lia.
    + simpl tick.
      replace (k + S (tick w))%nat with (S k + tick w)%nat by lia.
      exact Hfail.
    + rewrite A, B, C. simpl log. rewrite length_app. simpl.
      repeat split. lia.
Qed.

End SeedMore.

(** X10: whatever fails, the seed keeps the section names unique and the
    enrollments within the capacities, leaves students and messages alone,
    and every section row afterwards is a row that was there or a catalog
    entry inserted active with no enrollment; when no statement fails every
    catalog entry has its row in the end. *)
Theorem seed_keeps_sections_sound :
  forall (env : Env) (s : Store),
    let s' := store (snd (run insertDefaultSections env s)) in
    (unique_names s -> unique_names s')
    /\ (capacity_respected s -> capacity_respected s')
    /\ (forall r, In r (sections s') ->
          In r (sections s)
          \/ (exists d, In d default_sections
                        /\ sec_name r = seed_name d
                        /\ sec_capacity r = seed_capacity d
                        /\ sec_fee_termly r = seed_fee_termly d
                        /\ sec_fee_annual r = seed_fee_annual d
                        /\ sec_age_min r = seed_age_min d
                        /\ sec_age_max r = seed_age_max d)
             /\ sec_current_enrollment r = 0
             /\ sec_is_active r = true)
    /\ ((forall n, db_fails env n = false) ->
        forall d, In d default_sections -> has_section (seed_name d) s')
    /\ students s' = students s
    /\ contact_messages s' = contact_messages s.
Proof.
  intros env s s'. subst s'. unfold run.
  change insertDefaultSections with (seed_all default_sections).
  split; [apply (seed_all_unique env default_sections (start s))|].
  split.
  { intros Hcap. unfold capacity_respected.
    apply (seed_all_forall env
             (fun r => sec_current_enrollment r <= sec_capacity r));
      [|exact Hcap].
    intros d id now Hin. simpl.
    repeat (destruct Hin as [<-|Hin]; [simpl; lia|]). destruct Hin. }
  split.
  { apply Forall_forall.
    apply (seed_all_forall env
             (fun r => In r (sections s)
                       \/ (exists d, In d default_sections
                                     /\ sec_name r = seed_name d
                                     /\ sec_capacity r = seed_capacity d
                                     /\ sec_fee_termly r = seed_fee_termly d
                                     /\ sec_fee_annual r = seed_fee_annual d
                                     /\ sec_age_min r = seed_age_min d
                                     /\ sec_age_max r = seed_age_max d)
                          /\ sec_current_enrollment r = 0
                          /\ sec_is_active r = true)).
    - intros d id now Hin. right. simpl. split; [|auto].
      exists d. repeat split; trivial.
    - apply Forall_forall. intros r Hr. now left. }
  split.
  { intros Hdb d Hin.
    apply (seed_all_completes default_sections env Hdb (start s) d).
    now left. }
  destruct (seed_all_extends default_sections env (start s))
    as (added & _ & _ & Hst & Hcm).
  split; [exact Hst|exact Hcm].
Qed.

Lemma seed_keeps_sections_sound_witness :
  unique_names (store (snd (run insertDefaultSections (Sample.failing_at 4)
                              Sample.tahfiz_one_left)))
  /\ capacity_respected
       (store (snd (run insertDefaultSections (Sample.failing_at 4)
                      Sample.tahfiz_one_left))).
Proof.
  destruct (seed_keeps_sections_sound (Sample.failing_at 4)
              Sample.tahfiz_one_left) as (A & B & _).
  split.
  - apply A. vm_compute.
    repeat (constructor; [simpl; intuition discriminate|]). constructor.
  - apply B. vm_compute. repeat constructor; discriminate.
Defined.

(** X11: a store fault ends the seed at once: when the statement for
    catalog entry k (counting from 0) is the first to be rejected, the seed
    rejects with the store error after k + 1 statements, and the store is
    what seeding the first k entries alone gives: the rows inserted before
    the fault stay, the later entries are not tried. *)
Theorem seed_stops_at_first_fault :
  forall (env : Env) (s : Store) (k : nat),
    (k < 6)%nat ->
    (forall n, (n < k)%nat -> db_fails env n = false) ->
    db_fails env k = true ->
    let out := run insertDefaultSections env s in
    fst out = Uncaught StoreError
    /\ store (snd out)
       = store (snd (run (seed_all (firstn k default_sections)) env s))
    /\ List.length (log (snd out)) = S k.
Proof.
  intros env s k Hk Hok Hfail out. subst out. unfold run.
  change insertDefaultSections with (seed_all default_sections).
  destruct (seed_all_stops env default_sections k (start s))
    as (A & B & C).
  - exact Hk.
  - intros n Hn. rewrite Nat.add_0_r. now apply Hok.
  - rewrite Nat.add_0_r. exact Hfail.
  - repeat split; trivial. rewrite C. simpl. lia.
Qed.

Lemma seed_stops_at_first_fault_witness :
  let out := run insertDefaultSections (Sample.failing_at 2) empty_store in
  fst out = Uncaught StoreError
  /\ map sec_name (sections (store (snd out))) = ["Nursery"; "Primary School"].
Proof.
  destruct (seed_stops_at_first_fault (Sample.failing_at 2) empty_store 2)
    as (A & B & _).
  - lia.
  - intros n Hn. destruct n as [|[|n]]; [reflexivity|reflexivity|lia].
  - reflexivity.
  - split; [exact A|]. rewrite B. reflexivity.
Defined.

(** ** Registration identifiers *)

Section Identifiers.

Lemma zeros_then_digits (k : nat) (d : uint) :
  d <> Nil ->
  NilZero.uint_of_string
    (Js.repeat_char "0" k ++ NilEmpty.string_of_uint d)%string
  = Some (Nat.iter k D0 d).
Proof.
  intros Hd. induction k as [|k IH]; simpl.
  - rewrite <- (NilZero.usu d Hd). unfold NilZero.string_of_uint.
    destruct d; trivial. contradiction.
  - unfold NilZero.uint_of_string in IH.
    destruct (Js.repeat_char "0" k ++ NilEmpty.string_of_uint d)%string
      eqn:E.
    + discriminate.
    + rewrite IH. reflexivity.
Qed.

Lemma of_uint_zeros (k : nat) (d : uint) :
  Z.of_uint (Nat.iter k D0 d) = Z.of_uint d.
Proof. induction k as [|k IH]; simpl; [reflexivity|exact IH]. Qed.

(** Below 2^53 a row id is printed digit for digit. *)
Lemma printed_small (z : Z) : Z.abs z < 2 ^ 53 -> Js.printed z = z.
Proof.
  intros Hz. unfold Js.printed.
  destruct (Z.ltb_spec (Z.abs z) (2 ^ 53)); [reflexivity|lia].
Qed.

Lemma padded_digits_read_back (n : nat) (z : Z) :
  0 <= z < 2 ^ 53 ->
  option_map Z.of_uint
    (NilZero.uint_of_string (Js.padStart n "0" (Js.toString z)))
  = Some z.
Proof.
  intros Hz. unfold Js.padStart, Js.toString.
  rewrite printed_small by lia.
  destruct z as [|p|p]; [| |lia].
  - change (NilZero.string_of_int (Z.to_int 0))
      with (NilEmpty.string_of_uint (D0 Nil)).
    rewrite zeros_then_digits by discriminate. simpl.
    now rewrite of_uint_zeros.
  - assert (Hp : Pos.to_uint p <> Nil) by apply DecimalPos.Unsigned.to_uint_nonnil.
    replace (NilZero.string_of_int (Z.to_int (Z.pos p)))
      with (NilEmpty.string_of_uint (Pos.to_uint p))
      by (simpl; unfold NilZero.string_of_uint;
          destruct (Pos.to_uint p); trivial; contradiction).
    rewrite zeros_then_digits by exact Hp. simpl.
    rewrite of_uint_zeros. unfold Z.of_uint.
    now rewrite DecimalPos.Unsigned.of_to.
Qed.

End Identifiers.

(** X12: below 2^53, where a row id is a JavaScript number of its own, a
    registration identifier determines the row id it was made from: reading
    the digits after the school code gives the row id back, so two
    different row ids never get the same identifier.  The bound is needed:
    the row ids 2^53 and 2^53 + 1 are the same number once in JavaScript,
    and get the same identifier. *)
Theorem registration_id_reads_back :
  (forall (id other : Z),
      0 <= id < 2 ^ 53 ->
      0 <= other < 2 ^ 53 ->
      parse_registration_id (registration_id id) = Some id
      /\ (registration_id id = registration_id other -> id = other))
  /\ registration_id (2 ^ 53) = "MBU9007199254740992"
  /\ registration_id (2 ^ 53 + 1) = "MBU9007199254740992".
Proof.
  split; [|split; vm_compute; reflexivity].
  intros id other Hid Hother.
  assert (Hback : forall z, 0 <= z < 2 ^ 53 ->
            parse_registration_id (registration_id z) = Some z).
  { intros z Hz. unfold registration_id.
    change (parse_registration_id
              ("MBU" ++ Js.padStart 6 "0" (Js.toString z))%string)
      with (option_map Z.of_uint
              (NilZero.uint_of_string
                 (Js.padStart 6 "0" (Js.toString z)))).
    now apply padded_digits_read_back. }
  split; [now apply Hback|].
  intros E. apply (f_equal parse_registration_id) in E.
  rewrite !Hback in E by assumption. congruence.
Qed.

Lemma registration_id_reads_back_witness :
  parse_registration_id (registration_id 42) = Some 42.
Proof.
  refine (proj1 (proj1 registration_id_reads_back 42 7 _ _)); lia.
Defined.

(** ** The access gate *)

Section AccessGate.

Import Auth.

Lemma split_space_single (s : string) :
  no_space s = true -> split_space s = [s].
Proof.
  induction s as [|c s IH]; simpl; [reflexivity|].
  destruct (Ascii.eqb c " "); simpl; [discriminate|].
  intros Hs. now rewrite (IH Hs).
Qed.

Lemma split_space_first (a b : string) :
  no_space a = true ->
  split_space (a ++ String " " b) = a :: split_space b.
Proof.
  induction a as [|c a IH]; simpl; [reflexivity|].
  destruct (Ascii.eqb c " "); simpl; [discriminate|].
  intros Ha. now rewrite (IH Ha).
Qed.

End AccessGate.

(** X13: the token gate looks only at the second space-separated piece of
    the Authorization header: without a header, with a one-word header, or
    with two spaces after the scheme it answers 401; with a scheme (any
    word, it is not compared with Bearer), one space and a token it
    answers 403 unless the token verifies, and calls next with the token's
    user when it does.  It never calls next without a verified user. *)
Theorem token_gate_reads_second_piece :
  forall (verify : string -> option Auth.User) (scheme token rest : string),
    Auth.no_space scheme = true ->
    Auth.no_space token = true ->
    token <> "" ->
    Auth.authenticateToken verify None
    = Auth.Answer 401 "Access token required"
    /\ Auth.authenticateToken verify (Some scheme)
       = Auth.Answer 401 "Access token required"
    /\ Auth.authenticateToken verify
         (Some (scheme ++ String " " (String " " rest))%string)
       = Auth.Answer 401 "Access token required"
    /\ Auth.authenticateToken verify (Some (scheme ++ String " " token)%string)
       = match verify token with
         | Some user => Auth.Next (Some user)
         | None => Auth.Answer 403 "Invalid or expired token"
         end
    /\ (forall header user,
          Auth.authenticateToken verify header = Auth.Next user ->
          exists t u, user = Some u /\ verify t = Some u).
Proof.
  intros verify scheme token rest Hs Ht Hne.
  assert (Htruthy : forall a b, Js.truthy (Some (a ++ String " " b)%string) = true).
  { intros a b. destruct a; reflexivity. }
  repeat split.
  - unfold Auth.authenticateToken, Auth.token_of. simpl.
    destruct scheme as [|c scheme]; [reflexivity|].
    change (Js.truthy (Some (String c scheme))) with true. cbv iota.
    rewrite (split_space_single _ Hs). reflexivity.
  - unfold Auth.authenticateToken, Auth.token_of.
    rewrite Htruthy, (split_space_first _ _ Hs). reflexivity.
  - unfold Auth.authenticateToken, Auth.token_of.
    rewrite Htruthy, (split_space_first _ _ Hs).
    rewrite (split_space_single _ Ht). simpl.
    destruct token as [|c token]; [contradiction|]. simpl.
    now destruct (verify (String c token)).
  - intros header user. unfold Auth.authenticateToken.
    destruct (Auth.token_of header) as [t|]; [|discriminate].
    destruct (Js.truthy (Some t)); [|discriminate].
    destruct (verify t) as [u|] eqn:E; [|discriminate].
    intros [= <-]. eauto.
Qed.

Lemma token_gate_reads_second_piece_witness :
  Auth.authenticateToken Auth.sample_verify (Some "Basic good-token")
  = Auth.Next (Some (Auth.mkUser 1 "admin" "super_admin")).
Proof.
  destruct (token_gate_reads_second_piece Auth.sample_verify "Basic"
              "good-token" "" eq_refl eq_refl)
    as (_ & _ & _ & W & _); [discriminate|exact W].
Defined.

(** X14: the role gates: both refuse a request without a user with 403;
    the admin gate lets through exactly the roles admin and super_admin,
    and whoever passes the super-admin gate passes the admin gate. *)
Theorem super_admin_passes_admin_gate :
  forall (user : option Auth.User) (passed : option Auth.User),
    Auth.requireAdmin None = Auth.Answer 403 "Admin access required"
    /\ Auth.requireSuperAdmin None
       = Auth.Answer 403 "Super admin access required"
    /\ (Auth.requireAdmin user = Auth.Next passed
        <-> passed = user
            /\ exists u, user = Some u
                         /\ (Auth.role u = "admin"
                             \/ Auth.role u = "super_admin"))
    /\ (Auth.requireSuperAdmin user = Auth.Next passed ->
        Auth.requireAdmin user = Auth.Next passed).
Proof.
  intros user passed.
  split; [reflexivity|]. split; [reflexivity|]. split; [split|].
  - unfold Auth.requireAdmin. destruct user as [u|]; [|discriminate].
    destruct (isIn _ _) eqn:E; [|discriminate].
    intros [= <-]. split; [reflexivity|].
    exists u. split; [reflexivity|].
    unfold isIn in E. simpl in E. rewrite orb_false_r in E.
    apply orb_prop in E as [E|E]; apply String.eqb_eq in E; auto.
  - intros (-> & u & -> & Hrole). unfold Auth.requireAdmin, isIn. simpl.
    destruct Hrole as [-> | ->]; reflexivity.
  - unfold Auth.requireSuperAdmin, Auth.requireAdmin.
    destruct user as [u|]; [|discriminate].
    destruct (String.eqb_spec (Auth.role u) "super_admin") as [E|];
      [|discriminate].
    intros [= <-]. now rewrite E.
Qed.

(** ** The other routes: properties *)

Section OtherRoutes.

Import Routes.

Lemma find_all_false {A} (f : A -> bool) (l : list A) :
  (forall x, In x l -> f x = false) -> find f l = None.
Proof.
  induction l as [|x l IH]; intros Hall; simpl; [reflexivity|].
  rewrite (Hall x) by now left. apply IH. intros y Hy. apply Hall. now right.
Qed.

Lemma count_if_none {A} (f : A -> bool) (l : list A) :
  find f l = None -> count_if f l = 0.
Proof.
  intros Hnone. unfold count_if.
  replace (filter f l) with (@nil A); [reflexivity|].
  induction l as [|x l IH]; simpl in *; [reflexivity|].
  destruct (f x); [discriminate|auto].
Qed.

Lemma count_if_some {A} (f : A -> bool) (l : list A) (x : A) :
  find f l = Some x -> (count_if f l =? 0) = false.
Proof.
  intros Hsome. apply Z.eqb_neq. unfold count_if.
  apply find_some in Hsome as [Hin Hf].
  assert (Hx : In x (filter f l)) by (apply filter_In; auto).
  destruct (filter f l); [contradiction|simpl; lia].
Qed.

Lemma set_student_status_absent (status : string) (id now : Z)
    (l : list Student) :
  find (fun r => st_id r =? id) l = None ->
  map (set_student_status status id now) l = l.
Proof.
  intros Hnone. rewrite <- (map_id l) at 2. apply map_ext_in.
  intros r Hin. unfold set_student_status.
  now rewrite (find_none _ _ Hnone r Hin).
Qed.

Lemma find_id_set_status (status : string) (id id' now : Z)
    (l : list Student) :
  find (fun r => st_id r =? id') (map (set_student_status status id now) l)
  = option_map (set_student_status status id now)
      (find (fun r => st_id r =? id') l).
Proof.
  induction l as [|r l IH]; simpl; [reflexivity|].
  replace (st_id (set_student_status status id now r)) with (st_id r)
    by (unfold set_student_status; now destruct (st_id r =? id)).
  destruct (st_id r =? id'); [reflexivity|exact IH].
Qed.

(** Rethrowing what was caught changes nothing. *)
Lemma guarded_rethrow {A} (p : Task A) (env : Env) (receipt : nat -> string) :
  forall d,
    run_from (guarded p (fun e => Raise e)) env receipt d
    = run_from p env receipt d.
Proof.
  induction p as [a|e|X c k IHk h IHh]; intros d; simpl; trivial.
  destruct (refused env c (awaited d)); [apply IHh|apply IHk].
Qed.

Lemma bulk_loop_run (env : Env) (receipt : nat -> string) (subject : string)
    (body : string) (recipients : list Recipient) :
  forall (results : list Delivery) (d : Desk),
    fst (run_from (bulk_loop subject (Some body) recipients results) env
           receipt d)
    = Returned (results ++ deliveries env receipt (awaited d) recipients)
    /\ desk_store (snd (run_from (bulk_loop subject (Some body) recipients
                                    results) env receipt d)) = desk_store d
    /\ letters (snd (run_from (bulk_loop subject (Some body) recipients
                                 results) env receipt d))
       = letters d
         ++ map (fun e => mkLetter (Some (del_email e)) subject
                            (del_success e))
              (deliveries env receipt (awaited d) recipients).
Proof.
  induction recipients as [|r rest IH]; intros results d; simpl.
  - rewrite !app_nil_r. auto.
  - unfold refused. simpl.
    destruct (mail_fails env (awaited d)); simpl;
      match goal with
      | |- context [run_from (bulk_loop _ _ _ ?res) _ _ ?d1] =>
          destruct (IH res d1) as (A & B & C)
      end;
      rewrite A, B, C; simpl; rewrite <- !app_assoc; auto.
Qed.

(** Without [html] every turn of the loop ends in its [catch]. *)
Lemma bulk_loop_without_html (env : Env) (receipt : nat -> string)
    (subject : string) (recipients : list Recipient) :
  forall (results : list Delivery) (d : Desk),
    run_from (bulk_loop subject None recipients results) env receipt d
    = (Returned
         (results
          ++ map (fun r => mkDelivery (rcp_email r) false None
                             (Some TypeError)) recipients),
       d).
Proof.
  induction recipients as [|r rest IH]; intros results d; simpl.
  - now rewrite app_nil_r.
  - rewrite IH. now rewrite <- app_assoc.
Qed.

Lemma isIn_true (l : list string) (s : string) :
  isIn l s = true <-> In s l.
Proof.
  destruct (isIn l s) eqn:E.
  - split; trivial. intros _.
    destruct (in_dec string_dec s l) as [Hin|Hn]; trivial.
    apply isIn_false in Hn. congruence.
  - split; [discriminate|]. intros Hin. apply isIn_false in E. contradiction.
Qed.

Lemma patch_registration_run (env : Env) (receipt : nat -> string)
    (s : Store) (seq id : Z) (status : string) :
  run_from (patch_registration_status id status) env receipt (open s seq)
  = if negb (isIn ["pending"; "approved"; "rejected"] status) then
      (Returned
         (refuse 400 "Invalid status. Must be pending, approved, or rejected"),
       open s seq)
    else if db_fails env 0 then
      (Returned (refuse 500 "Failed to update registration status"),
       mkDesk s seq 1 [])
    else
      (Returned
         (if count_if (fun r => st_id r =? id) (students s) =? 0 then
            refuse 404 "Registration not found"
          else mkReply 200 true
                 (Some "Registration status updated successfully") None []),
       mkDesk
         (mkStore (map (set_student_status status id (clock env 0))
                     (students s))
            (students_seq s) (sections s) (sections_seq s)
            (contact_messages s))
         seq 1 []).
Proof.
  unfold patch_registration_status.
  destruct (isIn _ status); simpl; [|reflexivity].
  unfold refused. simpl. destruct (db_fails env 0); simpl; [reflexivity|].
  now destruct (count_if _ (students s) =? 0).
Qed.

Lemma find_id_set_message_status (status : string) (id id' now : Z)
    (l : list ContactMessage) :
  find (fun m => msg_id m =? id') (map (set_message_status status id now) l)
  = option_map (set_message_status status id now)
      (find (fun m => msg_id m =? id') l).
Proof.
  induction l as [|m l IH]; simpl; [reflexivity|].
  replace (msg_id (set_message_status status id now m)) with (msg_id m)
    by (unfold set_message_status; now destruct (msg_id m =? id)).
  destruct (msg_id m =? id'); [reflexivity|exact IH].
Qed.

Lemma patch_contact_run (env : Env) (receipt : nat -> string)
    (s : Store) (seq id : Z) (status : string) :
  run_from (patch_contact_status id status) env receipt (open s seq)
  = if negb (isIn ["unread"; "read"; "replied"] status) then
      (Returned
         (refuse 400 "Invalid status. Must be unread, read, or replied"),
       open s seq)
    else if db_fails env 0 then
      (Returned (refuse 500 "Failed to update message status"),
       mkDesk s seq 1 [])
    else
      (Returned
         (if count_if (fun m => msg_id m =? id) (contact_messages s) =? 0 then
            refuse 404 "Contact message not found"
          else mkReply 200 true
                 (Some "Message status updated successfully") None []),
       mkDesk
         (mkStore (students s) (students_seq s) (sections s) (sections_seq s)
            (map (set_message_status status id (clock env 0))
               (contact_messages s)))
         seq 1 []).
Proof.
  unfold patch_contact_status.
  destruct (isIn _ status); simpl; [|reflexivity].
  unfold refused. simpl. destruct (db_fails env 0); simpl; [reflexivity|].
  now destruct (count_if _ (contact_messages s) =? 0).
Qed.

Lemma get_registration_run (env : Env) (receipt : nat -> string)
    (s : Store) (seq id : Z) :
  run_from (get_registration id) env receipt (open s seq)
  = if db_fails env 0 then
      (Returned (refuse 500 "Failed to fetch registration"),
       mkDesk s seq 1 [])
    else
      (Returned
         match find (fun r => st_id r =? id) (students s) with
         | Some r => mkReply 200 true None (Some r) []
         | None => refuse 404 "Registration not found"
         end,
       mkDesk s seq 1 []).
Proof.
  unfold get_registration. simpl. unfold refused. simpl.
  destruct (db_fails env 0); simpl; [reflexivity|].
  now destruct (find _ (students s)).
Qed.

Section Contact.

Context `{Validator}.

(** The three ways a contact submission ends. *)
Lemma post_contact_run (env : Env) (receipt : nat -> string)
    (admin_email : option string) (s : Store) (seq : Z) (req : ContactBody) :
  run_from (post_contact admin_email req) env receipt (open s seq)
  = match contactValidation req with
    | _ :: _ =>
        (Returned
           (mkReply 400 false (Some "Validation failed") None
              (contactValidation req)),
         open s seq)
    | [] =>
        if db_fails env 0 then
          (Returned (refuse 500 "Failed to send message. Please try again."),
           mkDesk s seq 1 [])
        else
          let id := next_rowid seq (map msg_id (contact_messages s)) in
          (Returned
             (mkReply 201 true
                (Some
                   "Your message has been sent successfully. We will get back to you soon.")
                (Some (message_id id)) []),
           mkDesk
             (mkStore (students s) (students_seq s) (sections s)
                (sections_seq s)
                (contact_messages s
                 ++ [mkMessage id (Js.trim (c_name req)) (c_email req)
                       (c_phone req) (Js.trim (c_subject req))
                       (Js.trim (c_message req)) "unread" (clock env 0)
                       (clock env 0)]))
             id 3
             [mkLetter admin_email
                ("New Contact Message: " ++ Js.trim (c_subject req))%string
                (negb (mail_fails env 1));
              mkLetter (Some (c_email req)) auto_reply_subject
                (negb (mail_fails env 2))])
    end.
Proof.
  unfold post_contact.
  destruct (contactValidation req); [|reflexivity].
  simpl. unfold refused. simpl.
  destruct (db_fails env 0); simpl; [reflexivity|].
  unfold refused. simpl.
  destruct (mail_fails env 1); simpl; unfold refused; simpl;
    destruct (mail_fails env 2); reflexivity.
Qed.

End Contact.

Lemma deliveries_emails (env : Env) (receipt : nat -> string)
    (recipients : list Recipient) :
  forall n,
    map del_email (deliveries env receipt n recipients)
    = map rcp_email recipients.
Proof.
  induction recipients as [|r rest IH]; intros n; simpl; [reflexivity|].
  rewrite IH. now destruct (mail_fails env n).
Qed.

Lemma deliveries_nth (env : Env) (receipt : nat -> string)
    (recipients : list Recipient) :
  forall n i e,
    nth_error (deliveries env receipt n recipients) i = Some e ->
    del_success e = negb (mail_fails env (i + n)).
Proof.
  induction recipients as [|r rest IH]; intros n i e;
    [destruct i; discriminate|].
  destruct i as [|i]; simpl.
  - intros [= <-]. now destruct (mail_fails env n).
  - intros Hnth. replace (S (i + n))%nat with (i + S n)%nat by lia.
    now apply IH.
Qed.

End OtherRoutes.

(** X15: a status update of a registration never touches the sections, so
    rejecting a registration does not give its slot back, and it keeps the
    number of rows.  A status outside pending, approved, rejected is
    answered 400 before any statement; an id no row has is answered 404 and
    no row changes; otherwise, whatever the status was before, the row of
    that id gets the status and the time of the update and every row with
    another id stays as it was. *)
Theorem status_update_keeps_the_slot :
  forall (env : Env) (receipt : nat -> string) (s : Store) (seq id : Z)
         (status : string),
    let out := Routes.run_from (Routes.patch_registration_status id status)
                 env receipt (Routes.open s seq) in
    let s' := Routes.desk_store (snd out) in
    sections s' = sections s
    /\ contact_messages s' = contact_messages s
    /\ List.length (students s') = List.length (students s)
    /\ (~ In status ["pending"; "approved"; "rejected"] ->
        fst out
        = Returned
            (Routes.refuse 400
               "Invalid status. Must be pending, approved, or rejected")
        /\ s' = s /\ Routes.awaited (snd out) = 0%nat)
    /\ (In status ["pending"; "approved"; "rejected"] ->
        db_fails env 0 = false ->
        (find (fun r => st_id r =? id) (students s) = None ->
           fst out = Returned (Routes.refuse 404 "Registration not found")
           /\ students s' = students s)
        /\ (forall r, find (fun r => st_id r =? id) (students s) = Some r ->
              fst out
              = Returned
                  (Routes.mkReply 200 true
                     (Some "Registration status updated successfully")
                     None [])
              /\ find (fun r => st_id r =? id) (students s')
                 = Some
                     (mkStudent (st_id r) (st_student_name r)
                        (st_student_age r) (st_parent_name r) (st_phone r)
                        (st_email r) (st_section r) (st_payment_plan r)
                        (st_comments r) (st_registration_date r) status
                        (st_payment_status r) (st_created_at r)
                        (clock env 0))
              /\ (forall r', In r' (students s) -> st_id r' <> id ->
                             In r' (students s')))).
Proof.
  intros env receipt s seq id status out s'. subst s' out.
  rewrite patch_registration_run.
  destruct (isIn ["pending"; "approved"; "rejected"] status) eqn:Hin;
    cbn [negb].
  - apply isIn_true in Hin.
    destruct (db_fails env 0) eqn:H0; cbn [fst snd Routes.desk_store].
    + repeat split; trivial; try contradiction; discriminate.
    + cbn [sections contact_messages students]. rewrite length_map.
      split; [reflexivity|]. split; [reflexivity|]. split; [reflexivity|].
      split; [contradiction|]. intros _ _. split.
      * intros Hnone. rewrite (count_if_none _ _ Hnone). simpl.
        split; [reflexivity|].
        now apply set_student_status_absent.
      * intros r Hr. rewrite (count_if_some _ _ r Hr).
        split; [reflexivity|]. split.
        -- rewrite find_id_set_status, Hr. simpl.
           unfold Routes.set_student_status.
           apply find_some in Hr as [_ Hr]. now rewrite Hr.
        -- intros r' Hin' Hid. apply in_map_iff. exists r'.
           split; [|exact Hin']. unfold Routes.set_student_status.
           destruct (Z.eqb_spec (st_id r') id); congruence.
  - apply isIn_false in Hin. cbn [fst snd Routes.desk_store Routes.open].
    repeat split; trivial; contradiction.
Qed.

Lemma status_update_keeps_the_slot_witness :
  let out := Routes.run_from (Routes.patch_registration_status 3 "rejected")
               Sample.calm Routes.receipts
               (Routes.open Sample.tahfiz_one_left 0) in
  fst out
  = Returned
      (Routes.mkReply 200 true
         (Some "Registration status updated successfully") None [])
  /\ enrollment "Tahfiz" (Routes.desk_store (snd out)) = 24.
Proof.
  destruct (status_update_keeps_the_slot Sample.calm Routes.receipts
              Sample.tahfiz_one_left 0 3 "rejected")
    as (Hsec & _ & _ & _ & W).
  destruct W as [_ W]; [simpl; auto|reflexivity|].
  destruct (find (fun r => st_id r =? 3) (students Sample.tahfiz_one_left))
    as [r|] eqn:E; [|vm_compute in E; discriminate].
  destruct (W r eq_refl) as (A & _). split; [exact A|].
  unfold enrollment. rewrite Hsec. vm_compute. reflexivity.
Defined.

(** X16: a registration that was answered 201 can be fetched under the
    rowid the answer carries: the fetch returns the row of the submission,
    pending and unpaid; and a fetch, whatever fails, writes nothing. *)
Theorem registered_row_can_be_fetched `{Validator} :
  forall (env env' : Env) (receipt : nat -> string) (s : Store) (seq : Z)
         (req : Body) (r : Response) (w1 : World),
    run (post_registration req) env s = (Returned r, w1) ->
    created r = true ->
    db_fails env' 0 = false ->
    exists id now,
      data r
      = Registration (registration_id id) id (section req) (paymentPlan req)
      /\ fst (Routes.run_from (Routes.get_registration id) env' receipt
                (Routes.open (store w1) seq))
         = Returned
             (Routes.mkReply 200 true None
                (Some (registration_row req id now)) [])
      /\ st_status (registration_row req id now) = "pending"
      /\ Routes.desk_store
           (snd (Routes.run_from (Routes.get_registration id) env' receipt
                   (Routes.open (store w1) seq)))
         = store w1.
Proof.
  intros env env' receipt s seq req r w1 Hrun Hcreated H0'.
  unfold run in Hrun.
  destruct (post_registration_created_inv env (start s) req r w1
              Hrun Hcreated)
    as (Hv & Hdup & (info & Hsec & Hcap) & D0 & D1 & D2 & D3).
  rewrite (post_registration_created env (start s) req info) in Hrun
    by assumption.
  injection Hrun as <- <-.
  exists (new_student_id s), (clock env 2).
  rewrite get_registration_run, H0'. simpl.
  rewrite find_app_none.
  - simpl. rewrite Z.eqb_refl. auto.
  - apply find_all_false. intros x Hx. apply Z.eqb_neq. intros E.
    apply (next_rowid_fresh (students_seq s) (map st_id (students s))).
    unfold new_student_id in E. rewrite <- E. now apply in_map.
Qed.

Lemma registered_row_can_be_fetched_witness :
  exists id now,
    fst (Routes.run_from (Routes.get_registration id) Sample.calm
           Routes.receipts
           (Routes.open
              (store (snd (run (@post_registration Sample.validator
                                  Sample.fatima)
                             Sample.calm Sample.seeded)))
              0))
    = Returned
        (Routes.mkReply 200 true None
           (Some (registration_row Sample.fatima id now)) []).
Proof.
  destruct (@registered_row_can_be_fetched Sample.validator Sample.calm
              Sample.calm Routes.receipts Sample.seeded 0 Sample.fatima
              (mkResponse 201 true (Some "Registration successful")
                 (Registration "MBU000001" 1 "Tahfiz" "Annual Plan"))
              (snd (run (@post_registration Sample.validator Sample.fatima)
                      Sample.calm Sample.seeded)))
    as (id & now & _ & A & _).
  - vm_compute. reflexivity.
  - reflexivity.
  - reflexivity.
  - exists id, now. exact A.
Defined.

(** X17: a valid contact submission whose insert goes through is answered
    201 whatever becomes of the two mails: one unread message row is added
    under a fresh rowid, with name, subject and message trimmed; the answer
    carries MSG + the rowid padded with zeros to six digits; the mail to the
    office is tried first and the reply to the sender is tried even when the
    first was rejected; students and sections are not touched. *)
Theorem contact_is_stored_whatever_the_mails `{Validator} :
  forall (env : Env) (receipt : nat -> string) (admin_email : option string)
         (s : Store) (seq : Z) (req : Routes.ContactBody),
    Routes.contactValidation req = [] ->
    db_fails env 0 = false ->
    let out := Routes.run_from (Routes.post_contact admin_email req) env
                 receipt (Routes.open s seq) in
    let s' := Routes.desk_store (snd out) in
    let id := next_rowid seq (map msg_id (contact_messages s)) in
    fst out
    = Returned
        (Routes.mkReply 201 true
           (Some
              "Your message has been sent successfully. We will get back to you soon.")
           (Some ("MSG" ++ Js.padStart 6 "0" (Js.toString id))%string) [])
    /\ contact_messages s'
       = contact_messages s
         ++ [mkMessage id (Js.trim (Routes.c_name req)) (Routes.c_email req)
               (Routes.c_phone req) (Js.trim (Routes.c_subject req))
               (Js.trim (Routes.c_message req)) "unread" (clock env 0)
               (clock env 0)]
    /\ ~ In id (map msg_id (contact_messages s))
    /\ students s' = students s
    /\ sections s' = sections s
    /\ Routes.letters (snd out)
       = [Routes.mkLetter admin_email
            ("New Contact Message: " ++ Js.trim (Routes.c_subject req))%string
            (negb (mail_fails env 1));
          Routes.mkLetter (Some (Routes.c_email req))
            Routes.auto_reply_subject (negb (mail_fails env 2))].
Proof.
  intros env receipt admin_email s seq req Hval H0 out s' id.
  subst s' out id. rewrite post_contact_run, Hval, H0. simpl.
  repeat split. apply next_rowid_fresh.
Qed.

Lemma contact_is_stored_whatever_the_mails_witness :
  let out := Routes.run_from
               (@Routes.post_contact Sample.validator
                  (Some "office@school.ng") Routes.bello)
               Sample.no_mail Routes.receipts
               (Routes.open Sample.seeded 0) in
  fst out
  = Returned
      (Routes.mkReply 201 true
         (Some
            "Your message has been sent successfully. We will get back to you soon.")
         (Some "MSG000001") []).
Proof.
  refine (proj1 (@contact_is_stored_whatever_the_mails Sample.validator
                   Sample.no_mail Routes.receipts (Some "office@school.ng")
                   Sample.seeded 0 Routes.bello _ _)).
  - vm_compute. reflexivity.
  - reflexivity.
Defined.

(** X18: a contact submission that fails validation is answered 400 with
    its field errors, and one whose insert is rejected is answered 500; in
    both cases no message row is added and no mail is tried. *)
Theorem contact_refused_sends_nothing `{Validator} :
  forall (env : Env) (receipt : nat -> string) (admin_email : option string)
         (s : Store) (seq : Z) (req : Routes.ContactBody),
    Routes.contactValidation req <> [] \/ db_fails env 0 = true ->
    let out := Routes.run_from (Routes.post_contact admin_email req) env
                 receipt (Routes.open s seq) in
    Routes.desk_store (snd out) = s
    /\ Routes.letters (snd out) = []
    /\ exists r,
         fst out = Returned r
         /\ (Routes.contactValidation req <> [] ->
             Routes.code r = 400
             /\ Routes.field_errors r = Routes.contactValidation req
             /\ Routes.awaited (snd out) = 0%nat)
         /\ (Routes.contactValidation req = [] -> Routes.code r = 500).
Proof.
  intros env receipt admin_email s seq req Hcase out. subst out.
  rewrite post_contact_run.
  destruct (Routes.contactValidation req) as [|e es] eqn:Hval.
  - destruct Hcase as [Hn|H0]; [contradiction|]. rewrite H0. simpl.
    repeat split. eexists. split; [reflexivity|].
    split; [contradiction|reflexivity].
  - simpl. repeat split. eexists. split; [reflexivity|].
    split; [auto|discriminate].
Qed.

Lemma contact_refused_sends_nothing_witness :
  let out := Routes.run_from
               (@Routes.post_contact Sample.validator
                  (Some "office@school.ng") Routes.bello)
               (Sample.failing_at 0) Routes.receipts
               (Routes.open Sample.seeded 0) in
  Routes.desk_store (snd out) = Sample.seeded
  /\ Routes.letters (snd out) = [].
Proof.
  destruct (@contact_refused_sends_nothing Sample.validator
              (Sample.failing_at 0) Routes.receipts (Some "office@school.ng")
              Sample.seeded 0 Routes.bello) as (A & B & _).
  - right. reflexivity.
  - split; [exact A|exact B].
Defined.

(** X19: a message that was just stored is found by the fetch under its
    rowid, unread, and that first fetch marks it read in the store. *)
Theorem stored_contact_is_read_on_first_fetch `{Validator} :
  forall (env env' : Env) (receipt : nat -> string)
         (admin_email : option string) (s : Store) (seq : Z)
         (req : Routes.ContactBody),
    Routes.contactValidation req = [] ->
    db_fails env 0 = false ->
    db_fails env' 0 = false ->
    db_fails env' 1 = false ->
    let id := next_rowid seq (map msg_id (contact_messages s)) in
    let stored := mkMessage id (Js.trim (Routes.c_name req))
                    (Routes.c_email req) (Routes.c_phone req)
                    (Js.trim (Routes.c_subject req))
                    (Js.trim (Routes.c_message req)) "unread" (clock env 0)
                    (clock env 0) in
    let s1 := Routes.desk_store
                (snd (Routes.run_from (Routes.post_contact admin_email req)
                        env receipt (Routes.open s seq))) in
    let fetched := run (get_contact_message id) env' s1 in
    fst fetched
    = Returned (mkResponse 200 true None (Message (with_status stored "read")))
    /\ find (fun m => msg_id m =? id) (contact_messages (store (snd fetched)))
       = Some (mark_read id (clock env' 1) stored)
    /\ msg_status (mark_read id (clock env' 1) stored) = "read".
Proof.
  intros env env' receipt admin_email s seq req Hval H0 H0' H1' id stored
    s1 fetched.
  assert (Hs1 : s1 = mkStore (students s) (students_seq s) (sections s)
                       (sections_seq s) (contact_messages s ++ [stored])).
  { subst s1. now rewrite post_contact_run, Hval, H0. }
  assert (Hfind : find (fun m => msg_id m =? id) (contact_messages s1)
                  = Some stored).
  { rewrite Hs1. simpl. rewrite find_app_none.
    - simpl. subst stored. simpl. now rewrite Z.eqb_refl.
    - apply find_all_false. intros x Hx. apply Z.eqb_neq. intros E.
      apply (next_rowid_fresh seq (map msg_id (contact_messages s))).
      fold id. rewrite <- E. now apply in_map. }
  subst fetched.
  rewrite (get_contact_message_unread env' s1 id stored Hfind eq_refl H0' H1').
  simpl. split; [reflexivity|]. split.
  - rewrite find_id_mark_read, Hfind. reflexivity.
  - unfold mark_read. subst stored. simpl. now rewrite Z.eqb_refl.
Qed.

Lemma stored_contact_is_read_on_first_fetch_witness :
  fst (run (get_contact_message 1) Sample.calm
         (Routes.desk_store
            (snd (Routes.run_from
                    (@Routes.post_contact Sample.validator
                       (Some "office@school.ng") Routes.bello)
                    Sample.calm Routes.receipts
                    (Routes.open Sample.seeded 0)))))
  = Returned
      (mkResponse 200 true None
         (Message
            (mkMessage 1 "Bello Musa" "bello@example.org" None
               "Admission dates" "When does the next term start?" "read"
               1700000000 1700000000))).
Proof.
  refine (proj1 (@stored_contact_is_read_on_first_fetch Sample.validator
                   Sample.calm Sample.calm Routes.receipts
                   (Some "office@school.ng") Sample.seeded 0 Routes.bello
                   _ _ _ _)).
  - vm_compute. reflexivity.
  - reflexivity.
  - reflexivity.
  - reflexivity.
Defined.

(** X20: a status update of a contact message touches nothing but the
    messages: a status outside unread, read, replied is answered 400 before
    any statement; an id no message has is answered 404 and no row changes;
    otherwise the message of that id gets the status and the time of the
    update, every message with another id stays as it was, and setting it
    back to unread is allowed. *)
Theorem message_status_update_effect :
  forall (env : Env) (receipt : nat -> string) (s : Store) (seq id : Z)
         (status : string),
    let out := Routes.run_from (Routes.patch_contact_status id status)
                 env receipt (Routes.open s seq) in
    let s' := Routes.desk_store (snd out) in
    sections s' = sections s
    /\ students s' = students s
    /\ List.length (contact_messages s') = List.length (contact_messages s)
    /\ (~ In status ["unread"; "read"; "replied"] ->
        fst out
        = Returned
            (Routes.refuse 400
               "Invalid status. Must be unread, read, or replied")
        /\ s' = s /\ Routes.awaited (snd out) = 0%nat)
    /\ (In status ["unread"; "read"; "replied"] ->
        db_fails env 0 = false ->
        (find (fun m => msg_id m =? id) (contact_messages s) = None ->
           fst out = Returned (Routes.refuse 404 "Contact message not found")
           /\ contact_messages s' = contact_messages s)
        /\ (forall m,
              find (fun m => msg_id m =? id) (contact_messages s) = Some m ->
              fst out
              = Returned
                  (Routes.mkReply 200 true
                     (Some "Message status updated successfully") None [])
              /\ find (fun m => msg_id m =? id) (contact_messages s')
                 = Some
                     (mkMessage (msg_id m) (msg_name m) (msg_email m)
                        (msg_phone m) (msg_subject m) (msg_message m) status
                        (msg_created_at m) (clock env 0))
              /\ (forall m', In m' (contact_messages s) -> msg_id m' <> id ->
                             In m' (contact_messages s')))).
Proof.
  intros env receipt s seq id status out s'. subst s' out.
  rewrite patch_contact_run.
  destruct (isIn ["unread"; "read"; "replied"] status) eqn:Hin; cbn [negb].
  - apply isIn_true in Hin.
    destruct (db_fails env 0) eqn:H0; cbn [fst snd Routes.desk_store].
    + repeat split; trivial; try contradiction; discriminate.
    + cbn [sections contact_messages students]. rewrite length_map.
      split; [reflexivity|]. split; [reflexivity|]. split; [reflexivity|].
      split; [contradiction|]. intros _ _. split.
      * intros Hnone. rewrite (count_if_none _ _ Hnone). simpl.
        split; [reflexivity|].
        rewrite <- (map_id (contact_messages s)) at 2. apply map_ext_in.
        intros m Hm. unfold Routes.set_message_status.
        now rewrite (find_none _ _ Hnone m Hm).
      * intros m Hm. rewrite (count_if_some _ _ m Hm).
        split; [reflexivity|]. split.
        -- rewrite find_id_set_message_status, Hm. simpl.
           unfold Routes.set_message_status.
           apply find_some in Hm as [_ Hm]. now rewrite Hm.
        -- intros m' Hin' Hid. apply in_map_iff. exists m'.
           split; [|exact Hin']. unfold Routes.set_message_status.
           destruct (Z.eqb_spec (msg_id m') id); congruence.
  - apply isIn_false in Hin. cbn [fst snd Routes.desk_store Routes.open].
    repeat split; trivial; contradiction.
Qed.

Lemma message_status_update_effect_witness :
  fst (Routes.run_from (Routes.patch_contact_status 1 "replied") Sample.calm
         Routes.receipts (Routes.open Sample.one_unread 1))
  = Returned
      (Routes.mkReply 200 true (Some "Message status updated successfully")
         None []).
Proof.
  destruct (message_status_update_effect Sample.calm Routes.receipts
              Sample.one_unread 1 1 "replied") as (_ & _ & _ & _ & W).
  destruct W as [_ W]; [simpl; auto|reflexivity|].
  exact (proj1 (W Sample.unread_message eq_refl)).
Defined.

(** X21: bulk mail: when the transporter cannot be created the call
    rejects and no mail is tried.  Otherwise it returns one entry per
    recipient, in the order given.  When the caller gave no html, every
    entry is a failure with the TypeError of the call on html, and no mail
    is tried.  With an html, each entry tells whether its own mail was
    accepted (with the message id) or rejected (with the error): a rejected
    mail does not stop the loop.  The store is not touched. *)
Theorem bulk_mail_reports_every_recipient :
  forall (env : Env) (receipt : nat -> string) (s : Store) (seq : Z)
         (recipients : list Routes.Recipient) (subject : string)
         (html : option string),
    let out := Routes.run_from (Routes.sendBulkEmail recipients subject html)
                 env receipt (Routes.open s seq) in
    Routes.desk_store (snd out) = s
    /\ (mail_fails env 0 = true ->
        fst out = Uncaught MailError /\ Routes.letters (snd out) = [])
    /\ (mail_fails env 0 = false -> html = None ->
        fst out
        = Returned
            (map (fun r => Routes.mkDelivery (Routes.rcp_email r) false None
                             (Some TypeError)) recipients)
        /\ Routes.letters (snd out) = [])
    /\ (mail_fails env 0 = false -> html <> None ->
        exists results,
          fst out = Returned results
          /\ results = Routes.deliveries env receipt 1 recipients
          /\ map Routes.del_email results = map Routes.rcp_email recipients
          /\ (forall i e, nth_error results i = Some e ->
                Routes.del_success e = negb (mail_fails env (S i)))
          /\ Routes.letters (snd out)
             = map (fun e => Routes.mkLetter (Some (Routes.del_email e))
                               subject (Routes.del_success e))
                 results).
Proof.
  intros env receipt s seq recipients subject html out. subst out.
  unfold Routes.sendBulkEmail. simpl. unfold Routes.refused. simpl.
  destruct (mail_fails env 0) eqn:H0; simpl.
  - split; [reflexivity|]. split; [auto|]. split; discriminate.
  - rewrite guarded_rethrow. destruct html as [body|].
    + destruct (bulk_loop_run env receipt subject body recipients []
                  (Routes.mkDesk s seq 1 [])) as (A & B & C).
      simpl in A, B, C. split; [exact B|]. split; [discriminate|].
      split; [discriminate|].
      intros _ _. exists (Routes.deliveries env receipt 1 recipients).
      split; [exact A|]. split; [reflexivity|].
      split; [apply deliveries_emails|]. split; [|exact C].
      intros i e Hnth. apply deliveries_nth in Hnth.
      now rewrite Nat.add_1_r in Hnth.
    + rewrite bulk_loop_without_html. simpl.
      split; [reflexivity|]. split; [discriminate|].
      split; [auto|]. intros _ E. now elim E.
Qed.

Lemma bulk_mail_reports_every_recipient_witness :
  (exists results,
      fst (Routes.run_from
             (Routes.sendBulkEmail Routes.parents "Term dates"
                (Some "<p>Dear {{name}}</p>"))
             (Routes.mail_failing_at 2) Routes.receipts
             (Routes.open Sample.seeded 0))
      = Returned results
      /\ map Routes.del_success results = [true; false; true])
  /\ fst (Routes.run_from
            (Routes.sendBulkEmail Routes.parents "Term dates" None)
            Sample.calm Routes.receipts (Routes.open Sample.seeded 0))
     = Returned
         [Routes.mkDelivery "amina@example.org" false None (Some TypeError);
          Routes.mkDelivery "bello@example.org" false None (Some TypeError);
          Routes.mkDelivery "chika@example.org" false None (Some TypeError)].
Proof.
  split.
  - destruct (bulk_mail_reports_every_recipient (Routes.mail_failing_at 2)
                Routes.receipts Sample.seeded 0 Routes.parents "Term dates"
                (Some "<p>Dear {{name}}</p>"))
      as (_ & _ & _ & W).
    destruct (W eq_refl) as (results & A & B & _); [discriminate|].
    exists results. split; [exact A|]. rewrite B. reflexivity.
  - destruct (bulk_mail_reports_every_recipient Sample.calm
                Routes.receipts Sample.seeded 0 Routes.parents "Term dates"
                None)
      as (_ & _ & W & _).
    exact (proj1 (W eq_refl eq_refl)).
Defined.

(** X22: a valid submission for a section whose row is missing or switched
    off is answered "Selected section is not available" after the two
    lookups, however many free slots the row has, and nothing is written. *)
Theorem inactive_section_is_not_available `{Validator} :
  forall (env : Env) (s : Store) (req : Body),
    registrationValidation req = [] ->
    existing_student req s = None ->
    (forall r, In r (sections s) -> sec_name r = section req ->
               sec_is_active r = false) ->
    db_fails env 0 = false ->
    db_fails env 1 = false ->
    let out := run (post_registration req) env s in
    fst out = Returned (failure 400 "Selected section is not available")
    /\ store (snd out) = s
    /\ log (snd out)
       = [mkEvent OpSelectStudentId true; mkEvent OpSelectActiveSection true].
Proof.
  intros env s req Hval Hdup Hoff H0 H1 out. subst out. unfold run.
  rewrite (post_registration_unavailable env (start s) req); auto.
  unfold active_section. apply find_all_false. intros r Hr.
  unfold active_named.
  destruct (String.eqb_spec (sec_name r) (section req)) as [E|]; trivial.
  simpl. now apply Hoff.
Qed.

Lemma inactive_section_is_not_available_witness :
  fst (run (@post_registration Sample.validator Sample.fatima) Sample.calm
         (mkStore [] 0 [mkSection 4 "Tahfiz" "Quran memorization program" 25
                          0 18000 48000 8 18 false 1700000003 1700000003]
            4 []))
  = Returned (failure 400 "Selected section is not available").
Proof.
  refine (proj1 (@inactive_section_is_not_available Sample.validator
                   Sample.calm _ Sample.fatima _ _ _ _ _)).
  - vm_compute. reflexivity.
  - reflexivity.
  - intros r [<-|[]] _. reflexivity.
  - reflexivity.
  - reflexivity.
Defined.

Lemma post_registration_always_answers_witness :
  exists r,
    fst (run (@post_registration Sample.validator Sample.fatima)
           (Sample.failing_at 3) Sample.seeded) = Returned r
    /\ In (http_status r) [201; 400; 409; 500].
Proof.
  destruct (@post_registration_always_answers Sample.validator
              (Sample.failing_at 3) Sample.seeded Sample.fatima)
    as (r & A & B & _).
  exists r. split; [exact A|exact B].
Defined.


Lemma fetch_touches_one_message_at_most_witness :
  fst (run (get_contact_message 99) Sample.calm Sample.one_unread)
  = Returned (failure 404 "Contact message not found").
Proof.
  destruct (fetch_touches_one_message_at_most Sample.calm Sample.one_unread
              99) as (_ & _ & _ & _ & W).
  exact (proj1 (W eq_refl eq_refl)).
Defined.

Lemma super_admin_passes_admin_gate_witness :
  Auth.requireAdmin (Some (Auth.mkUser 1 "admin" "super_admin"))
  = Auth.Next (Some (Auth.mkUser 1 "admin" "super_admin")).
Proof.
  destruct (super_admin_passes_admin_gate
              (Some (Auth.mkUser 1 "admin" "super_admin"))
              (Some (Auth.mkUser 1 "admin" "super_admin")))
    as (_ & _ & _ & W).
  exact (W eq_refl).
Defined.
